(** * mcp_client.py: the tool-descriptor translator and the chat loop

    A shallow embedding of [src/mcp_client.py].  The translator
    [mcp_tool_to_openai_tool] is a function with a diagnostic log and an
    exception result; [run_client] is written in a state-and-exception monad
    over the conversation history, the printed output and the state of the
    external collaborators (tool server, completion endpoint). *)

From stdpp Require Import gmap strings list fin_maps sorting.

(** ** Python values *)

(** An attribute of a duck-typed Python object: the attribute may be absent
    from the object, present with value [None], or present with a value. *)
Inductive attr (A : Type) : Type :=
| Missing
| Null
| Val (a : A).
Arguments Missing {A}.
Arguments Null {A}.
Arguments Val {A} a.

(** A Python value that is either [None] or a value of type [A] is an
    [option A]; [None] is Python's [None]. *)

Inductive exn_class : Type :=
| AttributeError
| EOFError
| ValueError
| JSONDecodeError
| OtherException (cls : string).

(** An exception object: its class and [str(e)]. *)
Record exn : Type := Exn { exn_cls : exn_class; exn_text : string }.

Inductive result (A : Type) : Type :=
| Ok (a : A)
| Raise (e : exn).
Arguments Ok {A} a.
Arguments Raise {A} e.

(** [getattr(obj, 'field', default)] *)
Definition getattr {A} (field : attr A) (default : option A) : option A :=
  match field with
  | Missing => default
  | Null => None
  | Val a => Some a
  end.

(** [obj.field]: raises [AttributeError] when the attribute is absent. *)
Definition get_attribute {A} (field : attr A) (field_name : string) : result (option A) :=
  match field with
  | Missing =>
      Raise (Exn AttributeError ("object has no attribute '" +:+ field_name +:+ "'"))
  | Null => Ok None
  | Val a => Ok (Some a)
  end.

(** Truth value testing: [None], [''], [False] and [[]] are false. *)
Definition truthy_str (v : option string) : bool :=
  match v with
  | Some s => negb (String.eqb s "")
  | None => false
  end.

Definition truthy_bool (v : option bool) : bool :=
  match v with
  | Some b => b
  | None => false
  end.

Definition truthy_list {A} (v : option (list A)) : bool :=
  match v with
  | Some (_ :: _) => true
  | _ => false
  end.

(** [v or d] on a value that is [None] or a string. *)
Definition py_or (v : option string) (d : string) : option string :=
  if truthy_str v then v else Some d.

(** ** Data model *)

(** Source form (what the tool server exposes). *)
Record mcp_argument : Type := McpArgument {
  a_name : attr string;
  a_description : attr string;
  a_required : attr bool
}.

Record mcp_tool : Type := McpTool {
  t_name : attr string;
  t_description : attr string;
  t_arguments : attr (list mcp_argument)
}.

(** Target form (the function-calling schema of the completion API). *)
Record property : Type := Property {
  p_type : string;
  p_description : option string
}.

Record parameters : Type := Parameters {
  params_type : string;
  properties : gmap string property;
  required : list string
}.

Record openai_function : Type := OpenaiFunction {
  f_name : option string;
  f_description : option string;
  f_parameters : parameters
}.

Record openai_tool : Type := OpenaiTool {
  ot_type : string;
  ot_function : openai_function
}.

(** ** Printed diagnostics

    The prints of the modelled code, one constructor for each print (or run
    of prints with nothing between them), carrying the strings its f-string
    interpolates. *)
Inductive diag : Type :=
| DWarnUnnamedArgument (tool_name : option string)            (* line 58 *)
| DStart                                                      (* line 94 *)
| DOpenaiSetup                                                (* line 101 *)
| DOpenaiReady                                                (* line 106 *)
| DOpenaiSetupError (e : exn)                                 (* lines 108-110 *)
| DServerParams                                               (* lines 117, 122 *)
| DConnecting                                                 (* line 128 *)
| DConnected                                                  (* line 130 *)
| DCreatingSession                                            (* line 132 *)
| DSessionCreated                                             (* line 134 *)
| DInitializing                                               (* line 137 *)
| DServerInitialized (name version : string)                  (* line 139 *)
| DRequestingTools                                            (* line 141 *)
| DNoTools                                                    (* line 147 *)
| DToolsReceived (n : nat)                                    (* line 149 *)
| DToolsConverted                                             (* line 151 *)
| DToolsError (e : exn)                                       (* line 153 *)
| DChatBanner                                                 (* lines 168-169 *)
| DExitByUser                                                 (* line 181 *)
| DSendingRequest                                             (* line 190 *)
| DToolCallsChosen (names : list string)                      (* line 202 *)
| DProcessingToolCall (function_name : string)                (* line 211 *)
| DArguments (function_name : string)                         (* lines 214-215 *)
| DToolResult (text : string)                                 (* line 217 *)
| DJsonError (arguments : string) (e : exn)                   (* line 220 *)
| DToolError (function_name : string) (e : exn)               (* line 223 *)
| DSendingToolResults                                         (* line 230 *)
| DAssistant (final_answer : option string)                   (* line 247 *)
| DLoopError (e : exn)                                        (* line 250 *)
| DChatEnded                                                  (* line 254 *)
| DSessionClosed                                              (* line 256 *)
| DConnectionClosed.                                          (* line 257 *)

(** ** The translator: a computation that prints and may raise *)

Definition Log (A : Type) : Type := list diag * result A.

Definition log_ret {A} (a : A) : Log A := ([], Ok a).

Definition log_bind {A B} (m : Log A) (k : A → Log B) : Log B :=
  match m with
  | (out, Ok a) => let '(out', r) := k a in (out ++ out', r)
  | (out, Raise e) => (out, Raise e)
  end.

Definition log_print (d : diag) : Log unit := ([d], Ok tt).

Definition log_lift {A} (r : result A) : Log A := ([], r).

Declare Scope log_scope.
Delimit Scope log_scope with log.
Notation "'let*' x ':=' m 'in' k" := (log_bind m (fun x => k))
  (at level 10, x name, m at level 100, k at level 200) : log_scope.
Notation "'run' m 'in' k" := (log_bind m (fun _ => k))
  (at level 10, m at level 100, k at level 200) : log_scope.

(** Lines 42-46. *)
Definition empty_parameters : parameters :=
  {| params_type := "object"; properties := ∅; required := [] |}.

(** Lines 56-69: the body of the loop over the arguments.  [params] is the
    dictionary the loop mutates. *)
Definition translate_argument (mcp_tool : mcp_tool) (arg : mcp_argument)
    (params : parameters) : Log parameters :=
  (let arg_name := getattr (a_name arg) None in
   if negb (truthy_str arg_name) then
     let* tool_name := log_lift (get_attribute (t_name mcp_tool) "name") in
     run log_print (DWarnUnnamedArgument tool_name) in
     log_ret params
   else
     match arg_name with
     | None => log_ret params
     | Some key =>
         let arg_description := py_or (getattr (a_description arg) (Some "")) "" in
         let arg_required := getattr (a_required arg) (Some false) in
         let props :=
           <[key := {| p_type := "string"; p_description := arg_description |}]>
             (properties params) in
         let req :=
           if truthy_bool arg_required then required params ++ [key]
           else required params in
         log_ret {| params_type := params_type params;
                    properties := props;
                    required := req |}
     end)%log.

(** Lines 52-69: [for arg in mcp_arguments]. *)
Fixpoint translate_arguments (mcp_tool : mcp_tool) (args : list mcp_argument)
    (params : parameters) : Log parameters :=
  match args with
  | [] => log_ret params
  | arg :: rest =>
      (let* params' := translate_argument mcp_tool arg params in
       translate_arguments mcp_tool rest params')%log
  end.

(** Lines 40-81. *)
Definition mcp_tool_to_openai_tool (mcp_tool : mcp_tool) : Log openai_tool :=
  (let mcp_arguments := getattr (t_arguments mcp_tool) None in
   let* params :=
     (if truthy_list mcp_arguments then
        translate_arguments mcp_tool (default [] mcp_arguments) empty_parameters
      else log_ret empty_parameters) in
   let tool_name := getattr (t_name mcp_tool) (Some "unknown_tool") in
   let tool_description := py_or (getattr (t_description mcp_tool) (Some "")) "" in
   log_ret {| ot_type := "function";
              ot_function := {| f_name := tool_name;
                                f_description := tool_description;
                                f_parameters := params |} |})%log.

(** Line 150: [[mcp_tool_to_openai_tool(tool) for tool in mcp_tools_list]]. *)
Fixpoint translate_tools (mcp_tools_list : list mcp_tool) : Log (list openai_tool) :=
  match mcp_tools_list with
  | [] => log_ret []
  | tool :: rest =>
      (let* t := mcp_tool_to_openai_tool tool in
       let* ts := translate_tools rest in
       log_ret (t :: ts))%log
  end.

(** ** Conversation data *)

(** A tool-call intent: [tool_call.id], [tool_call.function.name],
    [tool_call.function.arguments]. *)
Record tool_call : Type := ToolCall {
  tc_id : string;
  tc_function_name : string;
  tc_arguments : string
}.

(** The message object of a completion response
    ([response.choices[0].message]). *)
Record chat_message : Type := ChatMessage {
  cm_content : option string;
  cm_tool_calls : option (list tool_call)
}.

(** The entries of the conversation history [messages]. *)
Inductive message : Type :=
| SystemMsg (content : string)                            (* line 157 *)
| UserMsg (content : string)                              (* line 187 *)
| AssistantObj (response_message : chat_message)          (* line 205 *)
| ToolMsg (tool_call_id name content : string)            (* lines 218, 221, 224 *)
| AssistantMsg (content : option string).                 (* lines 238, 244 *)

(** The [tools] argument of a completion request: the keyword is not passed
    (line 231), passed as [None] (line 194, empty list) or passed as a list. *)
Inductive tools_param : Type :=
| ToolsOmitted
| ToolsNone
| ToolsList (tools : list openai_tool).

Record completion_request : Type := CompletionRequest {
  req_model : string;
  req_messages : list message;
  req_tools : tools_param;
  req_tool_choice : option string
}.

Definition has_tool_list (req : completion_request) : bool :=
  match req_tools req with
  | ToolsList _ => true
  | _ => false
  end.

Inductive resource : Type := Connection | Session.

Inductive control : Type := Continue | Break.

(** Line 180. *)
Definition exit_keyword : string := "выход".

(** Line 221. *)
Definition invalid_json_content : string :=
  "Ошибка: неверный формат аргументов JSON.".

(** Line 224: the text before [{e}]. *)
Definition tool_error_prefix : string := "Ошибка выполнения инструмента: ".

(** Lines 157-166. *)
Definition system_prompt : string :=
"Ты полезный русскоязычный ассистент-калькулятор. У тебя есть доступ к следующим математическим инструментам:
1. add - сложение двух чисел
2. subtract - вычитание двух чисел

Когда пользователь просит произвести математические вычисления:
- Используй add для сложения
- Используй subtract для вычитания


Всегда используй инструменты для вычислений, даже для простых операций.".

(** ** External collaborators

    The Python built-ins, the tool server and the completion endpoint are not
    part of the source: they are the fields of one record.  [W] is the state
    of the outside world, which every call may change; [Json] is the type of
    decoded argument payloads.  [json_loads] returns the decoded value or
    raises: a [JSONDecodeError] on text that is not JSON, and other
    exceptions too (a [ValueError] on an integer with more digits than the
    interpreter converts, a [RecursionError] on deep nesting). *)
Record collaborators (W Json : Type) : Type := Collaborators {
  py_strip : string → string;                                   (* str.strip *)
  py_lower : string → string;                                   (* str.lower *)
  json_loads : string → result Json;                            (* json.loads *)
  openai_client : W → W * result (option string);               (* AsyncOpenAI().api_key *)
  stdio_client : W → W * result unit;                           (* stdio_client(...).__aenter__ *)
  client_session : W → W * result unit;                         (* ClientSession(...).__aenter__ *)
  initialize : W → W * result (string * string);                (* session.initialize *)
  list_tools : W → W * result (list mcp_tool);                  (* session.list_tools().tools *)
  call_tool : string → Json → W → W * result string;            (* str(session.call_tool(..)) *)
  chat_completions_create :
    completion_request → W → W * result chat_message            (* ...create(..).choices[0].message *)
}.
Arguments py_strip {W Json} _ _.
Arguments py_lower {W Json} _ _.
Arguments json_loads {W Json} _ _.
Arguments openai_client {W Json} _ _.
Arguments stdio_client {W Json} _ _.
Arguments client_session {W Json} _ _.
Arguments initialize {W Json} _ _.
Arguments list_tools {W Json} _ _.
Arguments call_tool {W Json} _ _ _ _.
Arguments chat_completions_create {W Json} _ _ _.

(** What the program does, in order: what it prints, what it reads, and each
    call to a collaborator with its outcome. *)
Inductive event (Json : Type) : Type :=
| EPrint (d : diag)
| EInput (line : option string)
| ESetup (r : result (option string))
| EEnter (res : resource) (r : result unit)
| EExit (res : resource)
| EInitialize (r : result (string * string))
| EListTools (r : result (list mcp_tool))
| ECallTool (name : string) (arguments : Json) (r : result string)
| ECompletion (req : completion_request) (r : result chat_message).
Arguments EPrint {Json} d.
Arguments EInput {Json} line.
Arguments ESetup {Json} r.
Arguments EEnter {Json} res r.
Arguments EExit {Json} res.
Arguments EInitialize {Json} r.
Arguments EListTools {Json} r.
Arguments ECallTool {Json} name arguments r.
Arguments ECompletion {Json} req r.

Record state (W Json : Type) : Type := State {
  world : W;
  messages : list message;
  output : list (event Json)
}.
Arguments State {W Json} world messages output.
Arguments world {W Json} _.
Arguments messages {W Json} _.
Arguments output {W Json} _.

Section Client.
Context {W Json : Type}.
Variable env : collaborators W Json.

(** *** The monad of [run_client]: state and exceptions *)

Definition M (A : Type) : Type := state W Json → state W Json * result A.

Definition ret {A} (a : A) : M A := fun st => (st, Ok a).

Definition bind {A B} (m : M A) (k : A → M B) : M B :=
  fun st =>
    match m st with
    | (st', Ok a) => k a st'
    | (st', Raise e) => (st', Raise e)
    end.

Definition raise {A} (e : exn) : M A := fun st => (st, Raise e).

(** [try: m except Exception as e: handler e]: the handler runs in the
    state the exception left behind. *)
Definition try_except {A} (m : M A) (handler : exn → M A) : M A :=
  fun st =>
    match m st with
    | (st', Ok a) => (st', Ok a)
    | (st', Raise e) => handler e st'
    end.

Definition emit (e : event Json) : M unit :=
  fun st => (State (world st) (messages st) (output st ++ [e]), Ok tt).

Definition print (d : diag) : M unit := emit (EPrint d).

(** A call to a collaborator: the world moves on, the call and its outcome
    are recorded. *)
Definition call {A} (f : W → W * result A) (ev : result A → event Json) : M A :=
  fun st =>
    let '(w, r) := f (world st) in
    (State w (messages st) (output st ++ [ev r]), r).

Definition get_messages : M (list message) := fun st => (st, Ok (messages st)).

(** [messages = l], [messages.append(m)], [messages.extend(l)] *)
Definition set_messages (l : list message) : M unit :=
  fun st => (State (world st) l (output st), Ok tt).

Definition append_message (m : message) : M unit :=
  fun st => (State (world st) (messages st ++ [m]) (output st), Ok tt).

Definition extend_messages (l : list message) : M unit :=
  fun st => (State (world st) (messages st ++ l) (output st), Ok tt).

(** The prints of a [Log] computation go to the output. *)
Definition log_run {A} (m : Log A) : M A :=
  fun st =>
    (State (world st) (messages st) (output st ++ map EPrint (fst m)), snd m).

Declare Scope m_scope.
Delimit Scope m_scope with M.
Notation "'let*' x ':=' m 'in' k" := (bind m (fun x => k))
  (at level 10, x name, m at level 100, k at level 200) : m_scope.
Notation "'run' m 'in' k" := (bind m (fun _ => k))
  (at level 10, m at level 100, k at level 200) : m_scope.
Local Open Scope m_scope.

(** [async with resource as ...: body]: the resource is released on every
    way out of the body. *)
Definition async_with {A} (res : resource) (enter : W → W * result unit)
    (body : M A) : M A :=
  run call enter (EEnter res) in
  fun st =>
    let '(st', r) := body st in
    (State (world st') (messages st') (output st' ++ [EExit res]), r).

(** *** Lines 141-153: tool discovery *)
Definition discover_tools : M (list openai_tool) :=
  run print DRequestingTools in
  try_except
    (let* mcp_tools_list := call (list_tools env) EListTools in
     if negb (truthy_list (Some mcp_tools_list)) then
       run print DNoTools in
       ret []
     else
       run print (DToolsReceived (length mcp_tools_list)) in
       let* openai_tools := log_run (translate_tools mcp_tools_list) in
       run print DToolsConverted in
       ret openai_tools)
    (fun e =>
       run print (DToolsError e) in
       ret []).

(** *** Lines 209-224: one tool-call intent *)
Definition process_tool_call (tool_call : tool_call) : M message :=
  let function_name := tc_function_name tool_call in
  let tool_call_id := tc_id tool_call in
  run print (DProcessingToolCall function_name) in
  try_except
    (let* function_args :=
       match json_loads env (tc_arguments tool_call) with
       | Ok v => ret v
       | Raise e => raise e
       end in
     run print (DArguments function_name) in
     let* mcp_tool_result :=
       call (call_tool env function_name function_args)
            (ECallTool function_name function_args) in
     run print (DToolResult mcp_tool_result) in
     ret (ToolMsg tool_call_id function_name mcp_tool_result))
    (fun e =>
       match exn_cls e with
       | JSONDecodeError =>
           run print (DJsonError (tc_arguments tool_call) e) in
           ret (ToolMsg tool_call_id function_name invalid_json_content)
       | _ =>
           run print (DToolError function_name e) in
           ret (ToolMsg tool_call_id function_name
                        (tool_error_prefix +:+ exn_text e))
       end).

(** Lines 207-224: [for tool_call in tool_calls], collecting
    [tool_results_messages]. *)
Fixpoint process_tool_calls (tool_calls : list tool_call)
    (tool_results_messages : list message) : M (list message) :=
  match tool_calls with
  | [] => ret tool_results_messages
  | tool_call :: rest =>
      let* m := process_tool_call tool_call in
      process_tool_calls rest (tool_results_messages ++ [m])
  end.

Definition completion (req : completion_request) : M chat_message :=
  call (chat_completions_create env req) (ECompletion req).

(** Lines 191-196: the request of the first call of a turn. *)
Definition first_request (openai_tools : list openai_tool)
    (history : list message) : completion_request :=
  {| req_model := "gpt-4o";
     req_messages := history;
     req_tools := if truthy_list (Some openai_tools)
                  then ToolsList openai_tools else ToolsNone;
     req_tool_choice := Some "auto" |}.

(** Lines 231-235: the request of the second call; [tools] and [tool_choice]
    are not passed. *)
Definition second_request (history : list message) : completion_request :=
  {| req_model := "gpt-4o";
     req_messages := history;
     req_tools := ToolsOmitted;
     req_tool_choice := None |}.

(** *** Lines 179-247: the body of the [try] inside [while True] *)
Definition turn_body (openai_tools : list openai_tool) (line : option string)
    : M control :=
  run emit (EInput line) in
  match line with
  | None => raise (Exn EOFError "EOF when reading a line")
  | Some user_request =>
      if String.eqb (py_lower env (py_strip env user_request)) exit_keyword then
        run print DExitByUser in
        ret Break
      else if negb (truthy_str (Some (py_strip env user_request))) then
        ret Continue
      else
        run append_message (UserMsg user_request) in
        run print DSendingRequest in
        let* history := get_messages in
        let* response_message := completion (first_request openai_tools history) in
        let tool_calls := cm_tool_calls response_message in
        let* final_answer :=
          (if truthy_list tool_calls then
             run print (DToolCallsChosen
                          (map tc_function_name (default [] tool_calls))) in
             run append_message (AssistantObj response_message) in
             let* tool_results_messages :=
               process_tool_calls (default [] tool_calls) [] in
             run extend_messages tool_results_messages in
             run print DSendingToolResults in
             let* history := get_messages in
             let* second_response := completion (second_request history) in
             let final_answer := cm_content second_response in
             run append_message (AssistantMsg final_answer) in
             ret final_answer
           else
             let final_answer := cm_content response_message in
             run append_message (AssistantMsg final_answer) in
             ret final_answer) in
        run print (DAssistant final_answer) in
        ret Continue
  end.

(** Lines 177-251: one iteration of [while True]. *)
Definition turn (openai_tools : list openai_tool) (line : option string)
    : M control :=
  try_except (turn_body openai_tools line)
    (fun e =>
       run print (DLoopError e) in
       ret Break).

(** Lines 176-251: the loop.  [inputs] are the lines the user types; when
    they are used up, [input()] raises [EOFError]. *)
Fixpoint chat_loop (openai_tools : list openai_tool) (inputs : list string)
    : M unit :=
  match inputs with
  | [] =>
      run turn openai_tools None in
      ret tt
  | line :: rest =>
      let* c := turn openai_tools (Some line) in
      match c with
      | Continue => chat_loop openai_tools rest
      | Break => ret tt
      end
  end.

(** Lines 134-254: the body of [async with ClientSession(...)]. *)
Definition session_body (inputs : list string) : M unit :=
  run print DSessionCreated in
  run print DInitializing in
  let* init_response := call (initialize env) EInitialize in
  run print (DServerInitialized (fst init_response) (snd init_response)) in
  let* openai_tools := discover_tools in
  run set_messages [SystemMsg system_prompt] in
  run print DChatBanner in
  run chat_loop openai_tools inputs in
  print DChatEnded.

(** Lines 101-111: [True] when the client is set up. *)
Definition setup_openai : M bool :=
  run print DOpenaiSetup in
  try_except
    (let* api_key := call (openai_client env) ESetup in
     if negb (truthy_str api_key) then
       raise (Exn ValueError "Переменная окружения OPENAI_API_KEY не установлена.")
     else
       run print DOpenaiReady in
       ret true)
    (fun e =>
       run print (DOpenaiSetupError e) in
       ret false).

(** Lines 89-257. *)
Definition run_client (inputs : list string) : M unit :=
  run print DStart in
  let* configured := setup_openai in
  if negb configured then ret tt
  else
    run print DServerParams in
    run print DConnecting in
    run async_with Connection (stdio_client env)
          (run print DConnected in
           run print DCreatingSession in
           run async_with Session (client_session env) (session_body inputs) in
           print DSessionClosed) in
    print DConnectionClosed.

End Client.

(** * Vocabulary of the statements *)

(** ** The translator *)

(** The argument list the loop of lines 51-52 runs over: empty when the
    attribute is absent, [None] or an empty list. *)
Definition arguments_of (t : mcp_tool) : list mcp_argument :=
  default [] (getattr (t_arguments t) None).

(** The key under which an argument is translated: its name, when the name is
    present and not empty (line 57). *)
Definition arg_key (arg : mcp_argument) : option string :=
  let arg_name := getattr (a_name arg) None in
  if truthy_str arg_name then arg_name else None.

Definition named_keys (args : list mcp_argument) : list string :=
  omap arg_key args.

(** The text of a description attribute after [getattr(.., '') or '']. *)
Definition description_text (d : attr string) : string :=
  match d with
  | Val s => s
  | _ => ""
  end.

Definition arg_property (arg : mcp_argument) : property :=
  {| p_type := "string";
     p_description := Some (description_text (a_description arg)) |}.

Definition arg_required_key (arg : mcp_argument) : option string :=
  if truthy_bool (getattr (a_required arg) (Some false)) then arg_key arg else None.

Definition add_property (m : gmap string property) (arg : mcp_argument)
    : gmap string property :=
  match arg_key arg with
  | Some key => <[key := arg_property arg]> m
  | None => m
  end.

(** ** Concrete descriptors *)

(** [add(a, b)], as the server of the demonstration would describe it. *)
Definition add_tool : mcp_tool :=
  {| t_name := Val "add";
     t_description := Val "Add two numbers";
     t_arguments :=
       Val [ {| a_name := Val "a"; a_description := Null; a_required := Val true |};
             {| a_name := Val "b"; a_description := Val "second"; a_required := Missing |} ] |}.

(** A descriptor whose two arguments have the same name. *)
Definition duplicate_tool : mcp_tool :=
  {| t_name := Val "add";
     t_description := Null;
     t_arguments :=
       Val [ {| a_name := Val "a"; a_description := Null; a_required := Val true |};
             {| a_name := Val "a"; a_description := Val "again"; a_required := Val true |} ] |}.

(** A descriptor without a [name] attribute, with one argument without a
    name. *)
Definition nameless_tool : mcp_tool :=
  {| t_name := Missing;
     t_description := Missing;
     t_arguments :=
       Val [ {| a_name := Missing; a_description := Missing; a_required := Missing |} ] |}.

(** The same, followed by a well-formed argument. *)
Definition nameless_tool_two : mcp_tool :=
  {| t_name := Missing;
     t_description := Val "Subtract";
     t_arguments :=
       Val [ {| a_name := Null; a_description := Null; a_required := Val true |};
             {| a_name := Val "b"; a_description := Val "second"; a_required := Val true |} ] |}.

(** The same arguments on a descriptor that has a name. *)
Definition subtract_tool : mcp_tool :=
  {| t_name := Val "subtract";
     t_description := Val "Subtract";
     t_arguments := t_arguments nameless_tool_two |}.

(** ** The chat loop *)

(** The state after more events were put out. *)
Definition add_output {W Json} (st : state W Json) (evs : list (event Json))
    : state W Json :=
  State (world st) (messages st) (output st ++ evs).

Definition is_completion {Json} (e : event Json) : bool :=
  match e with
  | ECompletion _ _ => true
  | _ => false
  end.

Definition is_input {Json} (e : event Json) : bool :=
  match e with
  | EInput _ => true
  | _ => false
  end.

Definition is_list_tools {Json} (e : event Json) : bool :=
  match e with
  | EListTools _ => true
  | _ => false
  end.

(** What happens while tool calls are dispatched: prints and calls to the
    tool server only. *)
Definition is_dispatch {Json} (e : event Json) : bool :=
  match e with
  | EPrint _ | ECallTool _ _ _ => true
  | _ => false
  end.

(** A tool-role message answers an intent when it carries the intent's call id
    and function name. *)
Definition answers (tc : tool_call) (m : message) : Prop :=
  ∃ content, m = ToolMsg (tc_id tc) (tc_function_name tc) content.

(** [needle] occurs in [hay]. *)
Definition contains (needle hay : string) : Prop :=
  ∃ before after, hay = before +:+ needle +:+ after.

(** The character [c] occurs in [s]. *)
Fixpoint occurs (c : Ascii.ascii) (s : string) : bool :=
  match s with
  | EmptyString => false
  | String c' rest => Ascii.eqb c c' || occurs c rest
  end.

(** Events of a turn after its line was read: prints, tool-server calls, and
    completion requests whose [tools] argument is that of the first request
    of a turn or is not passed. *)
Definition turn_event {Json} (tools : list openai_tool) (e : event Json) : Prop :=
  match e with
  | EPrint _ | ECallTool _ _ _ => True
  | ECompletion req _ =>
      req_tools req = ToolsOmitted ∨
      req_tools req = (if truthy_list (Some tools) then ToolsList tools else ToolsNone)
  | _ => False
  end.

(** Events outside the chat loop and the tool discovery. *)
Definition startup_event {Json} (e : event Json) : Prop :=
  is_input e = false ∧ is_list_tools e = false ∧ is_completion e = false.

Definition is_print {Json} (e : event Json) : Prop :=
  match e with
  | EPrint _ => True
  | _ => False
  end.

(** What the program puts out after the chat loop has ended (lines 254-257,
    with the release of the session and of the connection). *)
Definition closing {Json} : list (event Json) :=
  [EPrint DChatEnded; EExit Session; EPrint DSessionClosed;
   EExit Connection; EPrint DConnectionClosed].

Definition initial_state {W Json} (w : W) : state W Json := State w [] [].

(** What a run puts out until it asks the server for its tools, when nothing
    fails before: [key] is the API key, [info] the server's name and
    version. *)
Definition startup_trace {Json} (key : option string) (info : string * string)
    : list (event Json) :=
  [EPrint DStart; EPrint DOpenaiSetup; ESetup (Ok key); EPrint DOpenaiReady;
   EPrint DServerParams; EPrint DConnecting; EEnter Connection (Ok tt);
   EPrint DConnected; EPrint DCreatingSession; EEnter Session (Ok tt);
   EPrint DSessionCreated; EPrint DInitializing; EInitialize (Ok info);
   EPrint (DServerInitialized (fst info) (snd info)); EPrint DRequestingTools].

Definition resource_eqb (a b : resource) : bool :=
  match a, b with
  | Connection, Connection | Session, Session => true
  | _, _ => false
  end.

(** The resource [res] is released somewhere in [evs]. *)
Fixpoint has_exit {Json} (res : resource) (evs : list (event Json)) : bool :=
  match evs with
  | [] => false
  | EExit res' :: rest => resource_eqb res res' || has_exit res rest
  | _ :: rest => has_exit res rest
  end.

Definition is_acquire {Json} (e : event Json) : bool :=
  match e with
  | EEnter _ (Ok _) => true
  | _ => false
  end.

(** Every resource acquired in [evs] is released later in [evs]. *)
Fixpoint released {Json} (evs : list (event Json)) : bool :=
  match evs with
  | [] => true
  | EEnter res (Ok _) :: rest => has_exit res rest && released rest
  | _ :: rest => released rest
  end.

(** Line 180: the line is the exit keyword. *)
Definition is_exit {W Json} (env : collaborators W Json) (user_request : string) : bool :=
  String.eqb (py_lower env (py_strip env user_request)) exit_keyword.

(** Line 183: the line is empty or whitespace only. *)
Definition is_blank {W Json} (env : collaborators W Json) (user_request : string) : bool :=
  negb (truthy_str (Some (py_strip env user_request))).

(** The exception [input()] raises at the end of the input. *)
Definition eof_error : exn := Exn EOFError "EOF when reading a line".

Section Vocabulary.
Context {W Json : Type}.
Variable env : collaborators W Json.

Implicit Types (st : state W Json) (evs : list (event Json)).

(** The state in which the first request of a turn is sent. *)
Definition asked (u : string) st : state W Json :=
  State (world st) (messages st ++ [UserMsg u])
    (output st ++ [EInput (Some u); EPrint DSendingRequest]).

(** The state in which the dispatch of the intents of [m] starts. *)
Definition dispatching (tools : list openai_tool) (u : string) (m : chat_message)
    (w : W) st : state W Json :=
  State w (messages st ++ [UserMsg u; AssistantObj m])
    (output (asked u st) ++
     [ECompletion (first_request tools (messages st ++ [UserMsg u])) (Ok m);
      EPrint (DToolCallsChosen (map tc_function_name (default [] (cm_tool_calls m))))]).

(** In the output of the loop, what follows the reading of the exit keyword is
    the farewell and nothing else. *)
Definition exit_closed evs : Prop :=
  ∀ before u after,
    evs = before ++ EInput (Some u) :: after →
    is_exit env u = true →
    after = [EPrint DExitByUser].

Definition loop_trace (tools : list openai_tool) evs : Prop :=
  Forall (λ e, is_input e = true ∨ turn_event tools e) evs ∧ exit_closed evs.

(** The output of a run and its result: either the run never reached the tool
    discovery, or it reached it, ran the chat loop to its end and closed
    everything. *)
Definition run_shape evs (r : result unit) : Prop :=
  (Forall startup_event evs ∧ released evs = true) ∨
  (r = Ok tt ∧
   ∃ before rl disc tools loop,
     evs = before ++ EListTools rl :: disc ++ EPrint DChatBanner :: loop ++ closing ∧
     (∃ key info, before = startup_trace key info) ∧
     Forall startup_event before ∧
     Forall is_print disc ∧
     (∀ e, rl = Raise e → disc = [EPrint (DToolsError e)] ∧ tools = []) ∧
     loop_trace tools loop).

End Vocabulary.

(** * A concrete session

    Collaborators simple enough to run, for the examples at the end. *)

Module Demo.

(** [str.strip] on ASCII whitespace (tab to carriage return, the four
    separators, space). *)
Definition is_space (c : Ascii.ascii) : bool :=
  let n := Ascii.nat_of_ascii c in
  (Nat.leb 9 n && Nat.leb n 13) || (Nat.leb 28 n && Nat.leb n 32).

Fixpoint lstrip (s : string) : string :=
  match s with
  | String c rest => if is_space c then lstrip rest else s
  | EmptyString => EmptyString
  end.

Fixpoint rstrip (s : string) : string :=
  match s with
  | EmptyString => EmptyString
  | String c rest =>
      let r := rstrip rest in
      if is_space c && String.eqb r "" then EmptyString else String c r
  end.

Definition strip (s : string) : string := rstrip (lstrip s).

(** [str.lower] on the UTF-8 bytes of Latin and Cyrillic letters. *)
Definition lower_ascii (c : Ascii.ascii) : Ascii.ascii :=
  let n := Ascii.nat_of_ascii c in
  if Nat.leb 65 n && Nat.leb n 90 then Ascii.ascii_of_nat (n + 32) else c.

Fixpoint lower (s : string) : string :=
  match s with
  | EmptyString => EmptyString
  | String c1 tail =>
      match tail with
      | String c2 rest =>
          let n1 := Ascii.nat_of_ascii c1 in
          let n2 := Ascii.nat_of_ascii c2 in
          if Nat.eqb n1 208 && Nat.leb 128 n2 && Nat.leb n2 143 then
            String (Ascii.ascii_of_nat 209) (String (Ascii.ascii_of_nat (n2 + 16)) (lower rest))
          else if Nat.eqb n1 208 && Nat.leb 144 n2 && Nat.leb n2 159 then
            String c1 (String (Ascii.ascii_of_nat (n2 + 32)) (lower rest))
          else if Nat.eqb n1 208 && Nat.leb 160 n2 && Nat.leb n2 175 then
            String (Ascii.ascii_of_nat 209) (String (Ascii.ascii_of_nat (n2 - 32)) (lower rest))
          else String (lower_ascii c1) (lower tail)
      | EmptyString => String (lower_ascii c1) EmptyString
      end
  end.

Definition json_error_text : string := "Expecting value: line 1 column 1 (char 0)".

(** A stand-in for [json.loads]: a payload decodes (to itself) when it starts
    with an opening brace. *)
Definition loads (payload : string) : result string :=
  match payload with
  | String c _ =>
      if Nat.eqb (Ascii.nat_of_ascii c) 123 then Ok payload
      else Raise (Exn JSONDecodeError json_error_text)
  | EmptyString => Raise (Exn JSONDecodeError json_error_text)
  end.

(** The world is the script of the completion endpoint: the responses it
    still has to give. *)
Definition script : Type := list (result chat_message).

Definition create (req : completion_request) (w : script)
    : script * result chat_message :=
  match w with
  | r :: rest => (rest, r)
  | [] => ([], Raise (Exn (OtherException "APIConnectionError") "Connection error."))
  end.

(** The tool server: [add] answers, [parse] fails with a JSON decode error of
    its own, every other tool is unknown. *)
Definition invoke (name arguments : string) (w : script) : script * result string :=
  (w,
   if String.eqb name "add" then Ok "4"
   else if String.eqb name "parse" then Raise (Exn JSONDecodeError json_error_text)
   else Raise (Exn (OtherException "McpError") ("Unknown tool: " +:+ name))).

Definition env (tools : result (list mcp_tool)) : collaborators script string :=
  {| py_strip := strip;
     py_lower := lower;
     json_loads := loads;
     openai_client := λ w, (w, Ok (Some "sk-demo"));
     stdio_client := λ w, (w, Ok tt);
     client_session := λ w, (w, Ok tt);
     initialize := λ w, (w, Ok ("calculator", "1.0"));
     list_tools := λ w, (w, tools);
     call_tool := invoke;
     chat_completions_create := create |}.

Definition with_tools : collaborators script string := env (Ok [add_tool]).



Definition translated_add : list openai_tool :=
  match mcp_tool_to_openai_tool add_tool with
  | (_, Ok t) => [t]
  | _ => []
  end.

(** A response with three intents: one that the server answers, one whose
    payload does not decode, one for a tool the server does not know. *)
Definition three_calls : list tool_call :=
  [ {| tc_id := "call_1"; tc_function_name := "add"; tc_arguments := "{a: 2, b: 2}" |};
    {| tc_id := "call_2"; tc_function_name := "add"; tc_arguments := "a=2" |};
    {| tc_id := "call_3"; tc_function_name := "divide"; tc_arguments := "{a: 2, b: 0}" |} ].


Definition asks_add : chat_message :=
  {| cm_content := None; cm_tool_calls := Some (take 1 three_calls) |}.

Definition says (text : string) : chat_message :=
  {| cm_content := Some text; cm_tool_calls := None |}.

(** The state at the head of the loop, with the given script. *)
Definition at_loop (w : script) : state script string :=
  State w [SystemMsg system_prompt] [].

(** What a run puts out until it asks the server for its tools. *)
Definition startup_output : list (event string) :=
  startup_trace (Some "sk-demo") ("calculator", "1.0").



(** An intent for the tool whose invocation fails with a JSON decode error. *)
Definition parse_call : tool_call :=
  {| tc_id := "call_9"; tc_function_name := "parse"; tc_arguments := "{}" |}.

End Demo.

(** * Vocabulary of the further properties *)

(** The calls to the tool server in an output, in order: function name and
    decoded arguments. *)
Definition tool_calls_of {Json} (evs : list (event Json)) : list (string * Json) :=
  omap (λ e, match e with
             | ECallTool name arguments _ => Some (name, arguments)
             | _ => None
             end) evs.

(** The call an intent leads to: none when its payload does not decode. *)
Definition decoded_call {W Json} (env : collaborators W Json) (tc : tool_call)
    : option (string * Json) :=
  match json_loads env (tc_arguments tc) with
  | Ok v => Some (tc_function_name tc, v)
  | Raise _ => None
  end.

(** The lines read in an output, in order ([None] is the end of the input). *)
Definition reads {Json} (evs : list (event Json)) : list (option string) :=
  omap (λ e, match e with
             | EInput line => Some line
             | _ => None
             end) evs.

(** The completion requests sent in an output, in order. *)
Definition requests {Json} (evs : list (event Json)) : list completion_request :=
  omap (λ e, match e with
             | ECompletion req _ => Some req
             | _ => None
             end) evs.


(** The events that end the chat loop, each with what the loop prints before
    it stops: the end of the input and a failed completion request (both
    through the handler of line 249), and the exit keyword (line 180). *)
Definition ending {W Json} (env : collaborators W Json) (e : event Json)
    : option (list (event Json)) :=
  match e with
  | EInput None => Some [EPrint (DLoopError eof_error)]
  | EInput (Some u) => if is_exit env u then Some [EPrint DExitByUser] else None
  | ECompletion _ (Raise e) => Some [EPrint (DLoopError e)]
  | _ => None
  end.

Definition is_ending {W Json} (env : collaborators W Json) (e : event Json) : bool :=
  match ending env e with
  | Some _ => true
  | None => false
  end.

(** The tool list the discovery of lines 142-153 ends with, given the outcome
    of the list-tools call: the translations of the listed tools, or no tool
    when the call or a translation raises (or the list is empty). *)
Definition discovered (rl : result (list mcp_tool)) : list openai_tool :=
  match rl with
  | Ok l =>
      match translate_tools l with
      | (_, Ok ts) => ts
      | (_, Raise _) => []
      end
  | Raise _ => []
  end.

(** The failures that [run_client] does not handle: of the connection, of the
    session and of the initialization. *)
Definition is_startup_failure {Json} (e : event Json) : bool :=
  match e with
  | EEnter _ (Raise _) | EInitialize (Raise _) => true
  | _ => false
  end.

Definition startup_failure {Json} (e : exn) (ev : event Json) : Prop :=
  ev = EEnter Connection (Raise e) ∨ ev = EEnter Session (Raise e) ∨
  ev = EInitialize (Raise e).

(** The exception of line 105. *)
Definition missing_key_error : exn :=
  Exn ValueError "Переменная окружения OPENAI_API_KEY не установлена.".

(** The exception the setup of lines 102-111 ends with, if any. *)
Definition setup_error (r : result (option string)) : option exn :=
  match r with
  | Raise e => Some e
  | Ok key => if truthy_str key then None else Some missing_key_error
  end.

(** The runs of [run_client] that end before the tool discovery: their output
    and result. *)
Inductive early_end {Json} : list (event Json) → result unit → Prop :=
| SetupFailed r e :
    setup_error r = Some e →
    early_end [EPrint DStart; EPrint DOpenaiSetup; ESetup r;
               EPrint (DOpenaiSetupError e)] (Ok tt)
| ConnectionFailed key e :
    early_end [EPrint DStart; EPrint DOpenaiSetup; ESetup (Ok key);
               EPrint DOpenaiReady; EPrint DServerParams; EPrint DConnecting;
               EEnter Connection (Raise e)] (Raise e)
| SessionFailed key e :
    early_end [EPrint DStart; EPrint DOpenaiSetup; ESetup (Ok key);
               EPrint DOpenaiReady; EPrint DServerParams; EPrint DConnecting;
               EEnter Connection (Ok tt); EPrint DConnected;
               EPrint DCreatingSession; EEnter Session (Raise e);
               EExit Connection] (Raise e)
| InitializeFailed key e :
    early_end [EPrint DStart; EPrint DOpenaiSetup; ESetup (Ok key);
               EPrint DOpenaiReady; EPrint DServerParams; EPrint DConnecting;
               EEnter Connection (Ok tt); EPrint DConnected;
               EPrint DCreatingSession; EEnter Session (Ok tt);
               EPrint DSessionCreated; EPrint DInitializing;
               EInitialize (Raise e); EExit Session; EExit Connection] (Raise e).

Section TurnOutcome.
Context {W Json : Type}.
Variable env : collaborators W Json.

(** What one turn of the loop does from the state [st]: the line it read, what
    it put out, whether the loop goes on, and the state of the collaborators
    and the history it leaves. *)
Inductive turn_outcome (tools : list openai_tool) (st : state W Json)
  : option string → list (event Json) → control → W → list message → Prop :=
| TurnEof :
    turn_outcome tools st None
      [EInput None; EPrint (DLoopError eof_error)] Break (world st) (messages st)
| TurnExit u :
    is_exit env u = true →
    turn_outcome tools st (Some u)
      [EInput (Some u); EPrint DExitByUser] Break (world st) (messages st)
| TurnBlank u :
    is_exit env u = false →
    is_blank env u = true →
    turn_outcome tools st (Some u) [EInput (Some u)] Continue (world st) (messages st)
| TurnRequestFailed u w e :
    is_exit env u = false →
    is_blank env u = false →
    chat_completions_create env (first_request tools (messages st ++ [UserMsg u]))
      (world st) = (w, Raise e) →
    turn_outcome tools st (Some u)
      [EInput (Some u); EPrint DSendingRequest;
       ECompletion (first_request tools (messages st ++ [UserMsg u])) (Raise e);
       EPrint (DLoopError e)]
      Break w (messages st ++ [UserMsg u])
| TurnDirect u w m :
    is_exit env u = false →
    is_blank env u = false →
    chat_completions_create env (first_request tools (messages st ++ [UserMsg u]))
      (world st) = (w, Ok m) →
    truthy_list (cm_tool_calls m) = false →
    turn_outcome tools st (Some u)
      [EInput (Some u); EPrint DSendingRequest;
       ECompletion (first_request tools (messages st ++ [UserMsg u])) (Ok m);
       EPrint (DAssistant (cm_content m))]
      Continue w (messages st ++ [UserMsg u; AssistantMsg (cm_content m)])
| TurnTools u w m w2 devs results w3 r2 :
    is_exit env u = false →
    is_blank env u = false →
    chat_completions_create env (first_request tools (messages st ++ [UserMsg u]))
      (world st) = (w, Ok m) →
    truthy_list (cm_tool_calls m) = true →
    process_tool_calls env (default [] (cm_tool_calls m)) []
      (dispatching tools u m w st) =
      (State w2 (messages st ++ [UserMsg u; AssistantObj m])
         (output (dispatching tools u m w st) ++ devs), Ok results) →
    Forall2 answers (default [] (cm_tool_calls m)) results →
    Forall (λ e, is_dispatch e = true) devs →
    chat_completions_create env
      (second_request (messages st ++ [UserMsg u; AssistantObj m] ++ results))
      w2 = (w3, r2) →
    turn_outcome tools st (Some u)
      ([EInput (Some u); EPrint DSendingRequest;
        ECompletion (first_request tools (messages st ++ [UserMsg u])) (Ok m);
        EPrint (DToolCallsChosen
                  (map tc_function_name (default [] (cm_tool_calls m))))] ++
       devs ++
       [EPrint DSendingToolResults;
        ECompletion
          (second_request (messages st ++ [UserMsg u; AssistantObj m] ++ results)) r2;
        EPrint (match r2 with
                | Ok m2 => DAssistant (cm_content m2)
                | Raise e => DLoopError e
                end)])
      (match r2 with Ok _ => Continue | Raise _ => Break end)
      w3
      (messages st ++ [UserMsg u; AssistantObj m] ++ results ++
       match r2 with
       | Ok m2 => [AssistantMsg (cm_content m2)]
       | Raise _ => []
       end).

End TurnOutcome.

(** The requests of an output from a state with history [ms] to a state with
    history [ms']: each is a first or a second request, its history lies
    between [ms] and [ms'], and the histories grow from request to request. *)
Definition requests_chain (tools : list openai_tool) (ms : list message)
    (rs : list completion_request) (ms' : list message) : Prop :=
  ms `prefix_of` ms' ∧
  Forall (λ r, ms `prefix_of` req_messages r ∧ req_messages r `prefix_of` ms' ∧
               (r = first_request tools (req_messages r) ∨
                r = second_request (req_messages r))) rs ∧
  StronglySorted (λ r1 r2, req_messages r1 `prefix_of` req_messages r2) rs.

(** ** The script's entry point *)

(** What the module-level code prints: line 30 and lines 265-278. *)
Inductive main_diag :=
| MDotenvLoaded                 (* line 30 *)
| MScriptStarted                (* line 265 *)
| MKeyNotFound                  (* line 268 *)
| MKeyHint                      (* line 269 *)
| MKeyExample                   (* line 270 *)
| MRunDone                      (* line 274 *)
| MUnexpectedError (e : exn).   (* line 278 *)

(** What the script puts out: its own prints and the events of [run_client]. *)
Inductive main_event (Json : Type) :=
| MPrint (d : main_diag)
| MClient (e : event Json).

Arguments MPrint {Json} d.
Arguments MClient {Json} e.

Section Main.

Context {W Json : Type} (env : collaborators W Json).

(** Lines 29-30 and 264-278, the script run directly.  [key_in_environ] is
    the test ["OPENAI_API_KEY" in os.environ] of line 267, after
    [load_dotenv].  The handler of line 277 takes every [Exception] that
    [run_client] raises; an interrupt from the keyboard (line 275) is not an
    [Exception] and is outside the model. *)
Definition main (key_in_environ : bool) (inputs : list string) (w : W)
    : W * list (main_event Json) :=
  if negb key_in_environ then
    (w, [MPrint MDotenvLoaded; MPrint MScriptStarted;
         MPrint MKeyNotFound; MPrint MKeyHint; MPrint MKeyExample])
  else
    let '(st, r) := run_client env inputs (initial_state w) in
    (world st,
     [MPrint MDotenvLoaded; MPrint MScriptStarted] ++
     map MClient (output st) ++
     [MPrint (match r with
              | Ok _ => MRunDone
              | Raise e => MUnexpectedError e
              end)]).

End Main.

(** Collaborators that fail at startup, for the examples. *)
Module Faults.

Definition init_error : exn := Exn (OtherException "McpError") "Connection closed".

(** The server does not answer the initialization. *)
Definition failing_initialize : collaborators Demo.script string :=
  {| py_strip := Demo.strip;
     py_lower := Demo.lower;
     json_loads := Demo.loads;
     openai_client := λ w, (w, Ok (Some "sk-demo"));
     stdio_client := λ w, (w, Ok tt);
     client_session := λ w, (w, Ok tt);
     initialize := λ w, (w, Raise init_error);
     list_tools := λ w, (w, Ok [add_tool]);
     call_tool := Demo.invoke;
     chat_completions_create := Demo.create |}.

(** The client of the completion endpoint has no API key. *)
Definition no_key : collaborators Demo.script string :=
  {| py_strip := Demo.strip;
     py_lower := Demo.lower;
     json_loads := Demo.loads;
     openai_client := λ w, (w, Ok None);
     stdio_client := λ w, (w, Ok tt);
     client_session := λ w, (w, Ok tt);
     initialize := λ w, (w, Ok ("calculator", "1.0"));
     list_tools := λ w, (w, Ok [add_tool]);
     call_tool := Demo.invoke;
     chat_completions_create := Demo.create |}.

(** The decoder meets an integer with more digits than the interpreter
    converts: [json.loads] raises a [ValueError], not a [JSONDecodeError]. *)
Definition digits_error : exn :=
  Exn ValueError "Exceeds the limit (4300 digits) for integer string conversion".

Definition digit_limit : collaborators Demo.script string :=
  {| py_strip := Demo.strip;
     py_lower := Demo.lower;
     json_loads := λ _, Raise digits_error;
     openai_client := λ w, (w, Ok (Some "sk-demo"));
     stdio_client := λ w, (w, Ok tt);
     client_session := λ w, (w, Ok tt);
     initialize := λ w, (w, Ok ("calculator", "1.0"));
     list_tools := λ w, (w, Ok [add_tool]);
     call_tool := Demo.invoke;
     chat_completions_create := Demo.create |}.

(** The server lists a well-formed tool and one that cannot be translated. *)
Definition bad_listing : collaborators Demo.script string :=
  Demo.env (Ok [add_tool; nameless_tool]).

End Faults.

Ltac unfold_m :=
  unfold turn, turn_body, process_tool_call, completion, discover_tools,
    try_except, bind, ret, raise, print, emit, call, get_messages,
    set_messages, append_message, extend_messages, log_run, add_output;
  cbn [world messages output fst snd].

(** * Properties of the translator *)

Lemma py_or_description (d : attr string) :
  py_or (getattr d (Some "")) "" = Some (description_text d).
Proof.
  destruct d as [| |s]; try reflexivity.
  unfold py_or; simpl. destruct (String.eqb_spec s ""); simpl; congruence.
Qed.

Lemma arg_key_named arg key :
  arg_key arg = Some key ↔ a_name arg = Val key ∧ key ≠ "".
Proof.
  unfold arg_key. destruct (a_name arg) as [| |s]; simpl.
  - split; [discriminate | intros [? _]; discriminate].
  - split; [discriminate | intros [? _]; discriminate].
  - destruct (String.eqb_spec s ""); simpl.
    + split; [discriminate | intros [[= ->] ?]; contradiction].
    + split; [intros [= ->]; done | intros [[= ->] ?]; done].
Qed.

Lemma arg_key_unnamed arg :
  arg_key arg = None ↔ truthy_str (getattr (a_name arg) None) = false.
Proof.
  unfold arg_key. destruct (truthy_str (getattr (a_name arg) None)) eqn:E.
  - split; [|discriminate]. intros H.
    rewrite H in E. discriminate.
  - done.
Qed.

(** One round of the loop, when it does not raise. *)
Lemma translate_argument_ok t arg p out p' :
  translate_argument t arg p = (out, Ok p') →
  params_type p' = params_type p ∧
  properties p' = add_property (properties p) arg ∧
  required p' = required p ++ option_list (arg_required_key arg).
Proof.
  unfold translate_argument, add_property, arg_required_key.
  destruct (arg_key arg) as [key|] eqn:Hk.
  - apply arg_key_named in Hk as Hk'. destruct Hk' as [Hn Hne].
    rewrite Hn; simpl.
    destruct (String.eqb_spec key ""); [contradiction|]. simpl.
    rewrite py_or_description.
    intros [= <- <-]; simpl.
    destruct (truthy_bool _); simpl; by rewrite ?app_nil_r.
  - apply arg_key_unnamed in Hk. rewrite Hk; simpl.
    destruct (get_attribute (t_name t) "name"); simpl; [|discriminate].
    intros [= <- <-]. destruct (truthy_bool _); by rewrite app_nil_r.
Qed.

(** The whole loop, when it does not raise. *)
Lemma translate_arguments_ok t args : ∀ p out p',
  translate_arguments t args p = (out, Ok p') →
  params_type p' = params_type p ∧
  properties p' = foldl add_property (properties p) args ∧
  required p' = required p ++ omap arg_required_key args.
Proof.
  induction args as [|arg rest IH]; intros p out p'; simpl.
  - intros [= <- <-]. by rewrite app_nil_r.
  - unfold log_bind at 1.
    destruct (translate_argument t arg p) as [o1 [p1|e]] eqn:E1; [|discriminate].
    destruct (translate_arguments t rest p1) as [o2 r2] eqn:E2.
    intros [= <- ->].
    apply translate_argument_ok in E1 as (Ht & Hp & Hr).
    apply IH in E2 as (Ht' & Hp' & Hr').
    rewrite Ht', Hp', Hr', Ht, Hp, Hr. split_and!; [done..|].
    destruct (arg_required_key arg); simpl; by rewrite <- ?app_assoc.
Qed.

Lemma dom_foldl_add_property args : ∀ m : gmap string property,
  dom (foldl add_property m args) = dom m ∪ list_to_set (named_keys args).
Proof.
  induction args as [|arg rest IH]; intros m; simpl.
  - by rewrite (right_id_L ∅ (∪)).
  - rewrite IH. unfold add_property, named_keys. simpl.
    destruct (arg_key arg) as [key|]; simpl.
    + rewrite dom_insert_L, (comm_L (∪) {[key]}), <- (assoc_L (∪)). done.
    + done.
Qed.

Lemma required_keys_named args :
  omap arg_required_key args ⊆ named_keys args.
Proof.
  intros k. unfold named_keys. rewrite !list_elem_of_omap.
  intros (a & Ha & Hk). exists a. split; [done|].
  unfold arg_required_key in Hk. by destruct (truthy_bool _).
Qed.

Lemma size_list_to_set_remove_dups (l : list string) :
  size (list_to_set (C := gset string) l) = length (remove_dups l).
Proof.
  rewrite <- (size_list_to_set (C := gset string) (remove_dups l))
    by apply NoDup_remove_dups.
  f_equal. apply set_eq. intros x.
  by rewrite !elem_of_list_to_set, elem_of_remove_dups.
Qed.

(** A key that no later argument uses keeps the property of the argument that
    set it. *)
Lemma lookup_foldl_add_property_other args key : ∀ m : gmap string property,
  key ∉ named_keys args →
  foldl add_property m args !! key = m !! key.
Proof.
  induction args as [|arg rest IH]; intros m Hnot; simpl; [done|].
  unfold named_keys in Hnot; simpl in Hnot.
  rewrite IH.
  - unfold add_property. destruct (arg_key arg) as [k|] eqn:E; [|done].
    apply lookup_insert_ne. intros ->. apply Hnot. simpl. left.
  - intros Hin. apply Hnot. destruct (arg_key arg); simpl; [by right|done].
Qed.

(** Every property comes from a named argument of that name. *)
Lemma lookup_foldl_add_property_inv args key p : ∀ m : gmap string property,
  foldl add_property m args !! key = Some p →
  m !! key = Some p ∨
  ∃ arg, arg ∈ args ∧ arg_key arg = Some key ∧ p = arg_property arg.
Proof.
  induction args as [|arg rest IH]; intros m; simpl; [by left|].
  intros H. apply IH in H as [H|(a & Ha & Hk & Hp)].
  - unfold add_property in H. destruct (arg_key arg) as [k|] eqn:E.
    + destruct (decide (k = key)) as [->|Hne].
      * rewrite lookup_insert_eq in H. injection H as <-.
        right. exists arg. split_and!; [left|done..].
      * rewrite lookup_insert_ne in H by done. by left.
    + by left.
  - right. exists a. split_and!; [by right|done..].
Qed.

(** The translation of a tool, when it does not raise. *)
Lemma mcp_tool_to_openai_tool_ok t out tool :
  mcp_tool_to_openai_tool t = (out, Ok tool) →
  ot_type tool = "function" ∧
  f_name (ot_function tool) = getattr (t_name t) (Some "unknown_tool") ∧
  f_description (ot_function tool) = Some (description_text (t_description t)) ∧
  params_type (f_parameters (ot_function tool)) = "object" ∧
  properties (f_parameters (ot_function tool)) =
    foldl add_property ∅ (arguments_of t) ∧
  required (f_parameters (ot_function tool)) =
    omap arg_required_key (arguments_of t).
Proof.
  unfold mcp_tool_to_openai_tool, arguments_of.
  rewrite py_or_description.
  destruct (truthy_list (getattr (t_arguments t) None)) eqn:Htl.
  - unfold log_bind at 1.
    destruct (translate_arguments t _ _) as [o [p|e]] eqn:E; [|discriminate].
    simpl. intros [= <- <-]; simpl.
    apply translate_arguments_ok in E as (Ht & Hp & Hr).
    by rewrite Ht, Hp, Hr.
  - simpl. intros [= <- <-]; simpl.
    destruct (getattr (t_arguments t) None) as [[|a l]|]; simpl in *;
      try done.
Qed.

(** The loop does not raise when the tool has a name attribute or every
    argument has a non-empty name. *)
Lemma translate_arguments_total t args : ∀ p,
  t_name t ≠ Missing ∨ Forall (λ arg, arg_key arg ≠ None) args →
  ∃ out p', translate_arguments t args p = (out, Ok p').
Proof.
  induction args as [|arg rest IH]; intros p Hname; simpl.
  - by eexists _, _.
  - assert (∃ o1 p1, translate_argument t arg p = (o1, Ok p1)) as (o1 & p1 & E1).
    { unfold translate_argument.
      destruct (truthy_str (getattr (a_name arg) None)) eqn:Ht; simpl.
      - destruct (getattr (a_name arg) None); [|discriminate].
        by eexists _, _.
      - destruct Hname as [Hname|Hall].
        + destruct (t_name t); [done| |]; simpl; by eexists _, _.
        + apply Forall_cons in Hall as [Hk _].
          by apply arg_key_unnamed in Ht. }
    destruct (IH p1) as (o2 & p2 & E2).
    { destruct Hname as [?|Hall]; [by left|right].
      by apply Forall_cons in Hall as [_ ?]. }
    unfold log_bind. rewrite E1, E2. by eexists _, _.
Qed.

(** X1.  On a descriptor that has a name attribute (even [None]), or whose
    arguments all have non-empty names, the translator does not raise: it
    returns exactly one descriptor, of type [function], whose name is the
    tool's name, or ['unknown_tool'] when the attribute is absent. *)
Theorem translator_total_on_named t :
  t_name t ≠ Missing ∨ Forall (λ arg, arg_key arg ≠ None) (arguments_of t) →
  ∃ out tool,
    mcp_tool_to_openai_tool t = (out, Ok tool) ∧
    ot_type tool = "function" ∧
    f_name (ot_function tool) = getattr (t_name t) (Some "unknown_tool").
Proof.
  intros Hname.
  assert (∃ out tool, mcp_tool_to_openai_tool t = (out, Ok tool))
    as (out & tool & E).
  { unfold mcp_tool_to_openai_tool. destruct (truthy_list _).
    - destruct (translate_arguments_total t
                  (default [] (getattr (t_arguments t) None)) empty_parameters Hname)
        as (o & p & E).
      unfold log_bind. rewrite E. simpl. by eexists _, _.
    - simpl. by eexists _, _. }
  exists out, tool. split; [done|].
  by apply mcp_tool_to_openai_tool_ok in E as (? & ? & _).
Qed.

(** X1 at work on [subtract_tool], whose first argument has no name. *)
Lemma translator_total_on_named_witness :
  ∃ out tool,
    mcp_tool_to_openai_tool subtract_tool = (out, Ok tool) ∧
    ot_type tool = "function" ∧
    f_name (ot_function tool) = Some "subtract".
Proof.
  apply (translator_total_on_named subtract_tool). left. discriminate.
Defined.

(** C2 (the code raises where the claim says it never does).  On a descriptor
    that has no [name] attribute and an argument that has no name, the warning
    of line 58 reads [mcp_tool.name] directly and the translation ends in an
    [AttributeError]: no descriptor is produced, although line 71 would have
    degraded the missing name to ['unknown_tool']. *)
Lemma nameless_tool_raises :
  mcp_tool_to_openai_tool nameless_tool =
    ([], Raise (Exn AttributeError "object has no attribute 'name'")).
Proof. reflexivity. Qed.

(** C3, as stated, fails: two arguments with the same non-empty name give one
    property, so the property count (1) is not the number of arguments with
    non-empty names (2). *)
Lemma duplicate_names_one_property :
  ∃ out tool,
    mcp_tool_to_openai_tool duplicate_tool = (out, Ok tool) ∧
    size (properties (f_parameters (ot_function tool))) = 1 ∧
    length (filter (λ arg, truthy_str (getattr (a_name arg) None) = true)
                   (arguments_of duplicate_tool)) = 2.
Proof. eexists _, _. split; [reflexivity|]. split; vm_compute; reflexivity. Qed.

Lemma length_named_keys args :
  length (named_keys args) =
  length (filter (λ arg, truthy_str (getattr (a_name arg) None) = true) args).
Proof.
  induction args as [|arg rest IH]; [done|].
  unfold named_keys in *. rewrite filter_cons. cbn [omap list_omap].
  destruct (arg_key arg) as [key|] eqn:Hk.
  - assert (truthy_str (getattr (a_name arg) None) = true) as Ht.
    { apply arg_key_named in Hk as [-> Hne]. simpl.
      by destruct (String.eqb_spec key ""). }
    rewrite decide_True by done. simpl. by rewrite IH.
  - apply arg_key_unnamed in Hk.
    rewrite decide_False by (by rewrite Hk). apply IH.
Qed.

(** C3 (amended).  Whenever the translation produces a descriptor, its
    required list is a subset of its property names, and its property count is
    the number of distinct non-empty argument names, which is the number of
    arguments with non-empty names when those names are pairwise distinct.  A
    descriptor with no arguments is always translated, without a diagnostic,
    to empty properties and an empty required list. *)
Theorem translated_parameters_shape t :
  (∀ out tool,
     mcp_tool_to_openai_tool t = (out, Ok tool) →
     let params := f_parameters (ot_function tool) in
     (∀ key, key ∈ required params → key ∈ dom (properties params)) ∧
     size (properties params) = length (remove_dups (named_keys (arguments_of t))) ∧
     (NoDup (named_keys (arguments_of t)) →
      size (properties params) =
      length (filter (λ arg, truthy_str (getattr (a_name arg) None) = true)
                     (arguments_of t)))) ∧
  (arguments_of t = [] →
   ∃ tool,
     mcp_tool_to_openai_tool t = ([], Ok tool) ∧
     properties (f_parameters (ot_function tool)) = ∅ ∧
     required (f_parameters (ot_function tool)) = []).
Proof.
  split.
  - intros out tool H params. subst params.
    apply mcp_tool_to_openai_tool_ok in H as (_ & _ & _ & _ & Hp & Hr).
    rewrite Hp, Hr.
    assert (Hsize : size (foldl add_property ∅ (arguments_of t)) =
                    length (remove_dups (named_keys (arguments_of t)))).
    { rewrite <- size_dom, dom_foldl_add_property, dom_empty_L, (left_id_L ∅ (∪)).
      apply size_list_to_set_remove_dups. }
    split_and!.
    + intros key Hin. rewrite dom_foldl_add_property, elem_of_union.
      right. apply elem_of_list_to_set. by apply required_keys_named.
    + exact Hsize.
    + intros Hnd. rewrite Hsize, <- length_named_keys.
      f_equal. clear -Hnd. induction Hnd as [|x l Hx Hnd IH]; [done|].
      simpl. destruct (decide_rel _ x l); [done|]. by rewrite IH.
  - unfold arguments_of, mcp_tool_to_openai_tool. intros Hargs.
    assert (truthy_list (getattr (t_arguments t) None) = false) as ->.
    { by destruct (getattr (t_arguments t) None) as [[|]|]. }
    by eexists.
Qed.

(** C3 (amended) at work on [add_tool]: two properties, one required. *)
Lemma translated_parameters_shape_witness :
  ∃ out tool,
    mcp_tool_to_openai_tool add_tool = (out, Ok tool) ∧
    NoDup (named_keys (arguments_of add_tool)) ∧
    required (f_parameters (ot_function tool)) = ["a"] ∧
    (∀ key, key ∈ required (f_parameters (ot_function tool)) →
            key ∈ dom (properties (f_parameters (ot_function tool)))) ∧
    size (properties (f_parameters (ot_function tool))) = 2.
Proof.
  assert (Hnd : NoDup (named_keys (arguments_of add_tool))).
  { apply (bool_decide_unpack _). vm_compute. exact I. }
  eexists _, _. split; [reflexivity|]. split; [exact Hnd|]. split; [reflexivity|].
  destruct (proj1 (translated_parameters_shape add_tool) _ _ eq_refl)
    as (Hsub & _ & Hcount).
  split; [exact Hsub|]. exact (Hcount Hnd).
Defined.

(** C9 (the code aborts where the claim says it does not).  On a descriptor
    without a [name] attribute, the skip of an argument without a name raises
    at line 58, and the named argument after it is never translated.  On the
    same arguments under a descriptor that has a name, the argument is skipped
    with a warning and the named one is translated. *)
Lemma unnamed_argument_aborts_nameless_tool :
  mcp_tool_to_openai_tool nameless_tool_two =
    ([], Raise (Exn AttributeError "object has no attribute 'name'")) ∧
  ∃ tool,
    mcp_tool_to_openai_tool subtract_tool =
      ([DWarnUnnamedArgument (Some "subtract")], Ok tool) ∧
    properties (f_parameters (ot_function tool)) =
      {[ "b" := {| p_type := "string"; p_description := Some "second" |} ]} ∧
    required (f_parameters (ot_function tool)) = ["b"].
Proof.
  split; [reflexivity|]. eexists. split; [reflexivity|].
  split; [|reflexivity]. vm_compute. reflexivity.
Qed.

(** C10.  Whenever the translation produces a descriptor: the tool
    description is a string, the empty one when the source description is
    [None] (or absent); every property description is a string; every property
    is the translation of an argument of that name, whose description is the
    empty string when the argument's description is [None] (or absent); and an
    argument with a non-empty name that no later argument repeats is
    translated under its name with exactly that description. *)
Theorem descriptions_are_strings t out tool :
  mcp_tool_to_openai_tool t = (out, Ok tool) →
  let params := f_parameters (ot_function tool) in
  (∃ s, f_description (ot_function tool) = Some s) ∧
  (t_description t = Null → f_description (ot_function tool) = Some "") ∧
  (∀ key p, properties params !! key = Some p → ∃ s, p_description p = Some s) ∧
  (∀ key p, properties params !! key = Some p →
     ∃ arg, arg ∈ arguments_of t ∧ a_name arg = Val key ∧
            p_description p = Some (description_text (a_description arg)) ∧
            (a_description arg = Null → p_description p = Some "")) ∧
  (∀ before arg after key,
     arguments_of t = before ++ arg :: after →
     a_name arg = Val key → key ≠ "" →
     key ∉ named_keys after →
     a_description arg = Null →
     properties params !! key = Some {| p_type := "string"; p_description := Some "" |}).
Proof.
  intros H params. subst params.
  apply mcp_tool_to_openai_tool_ok in H as (_ & _ & Hd & _ & Hp & _).
  rewrite Hd, Hp.
  assert (Hinv : ∀ key p, foldl add_property ∅ (arguments_of t) !! key = Some p →
            ∃ arg, arg ∈ arguments_of t ∧ a_name arg = Val key ∧
                   p_description p = Some (description_text (a_description arg)) ∧
                   (a_description arg = Null → p_description p = Some "")).
  { intros key p Hl.
    apply lookup_foldl_add_property_inv in Hl as [Hl|(arg & Hin & Hk & ->)].
    - by rewrite lookup_empty in Hl.
    - apply arg_key_named in Hk as [Hn _].
      exists arg. split_and!; [done..|]. simpl. by intros ->. }
  split_and!.
  - by eexists.
  - by intros ->.
  - intros key p Hl. destruct (Hinv key p Hl) as (arg & _ & _ & Hs & _). by eexists.
  - exact Hinv.
  - intros before arg after key Hargs Hn Hne Hnot Hnull.
    rewrite Hargs, foldl_app. simpl.
    rewrite lookup_foldl_add_property_other by done.
    unfold add_property.
    assert (arg_key arg = Some key) as -> by (by apply arg_key_named).
    rewrite lookup_insert_eq. unfold arg_property. by rewrite Hnull.
Qed.

(** C10 at work on [add_tool]: the [None] description of [a] becomes the
    empty string. *)
Lemma descriptions_are_strings_witness :
  ∃ out tool,
    mcp_tool_to_openai_tool add_tool = (out, Ok tool) ∧
    f_description (ot_function tool) = Some "Add two numbers" ∧
    properties (f_parameters (ot_function tool)) !! "a" =
      Some {| p_type := "string"; p_description := Some "" |}.
Proof.
  eexists _, _. split; [reflexivity|]. split; [reflexivity|].
  refine (proj2 (proj2 (proj2 (proj2
    (descriptions_are_strings add_tool _ _ eq_refl)))) [] _ _ "a" eq_refl eq_refl _ _ eq_refl).
  - discriminate.
  - vm_compute. intros H. repeat (inversion H as [|? ? ? H']; subst; clear H; rename H' into H).
Defined.

(** * Properties of the chat loop *)

Lemma split_after_unmarked {A} (mark : A → bool) (l1 l2 before : list A) x after :
  Forall (λ a, mark a = false) l1 →
  mark x = true →
  l1 ++ l2 = before ++ x :: after →
  ∃ before', before = l1 ++ before' ∧ l2 = before' ++ x :: after.
Proof.
  intros Hl1 Hx. revert before.
  induction Hl1 as [|a l1 Ha Hl1 IH]; intros before E; simpl in E.
  - by exists before.
  - destruct before as [|b before]; simpl in E.
    + injection E as -> _. congruence.
    + injection E as -> E. destruct (IH _ E) as (before' & -> & ->).
      by exists before'.
Qed.

Lemma split_before_unmarked {A} (mark : A → bool) (l1 l2 before : list A) x after :
  Forall (λ a, mark a = false) l2 →
  mark x = true →
  l1 ++ l2 = before ++ x :: after →
  ∃ after', l1 = before ++ x :: after' ∧ after = after' ++ l2.
Proof.
  intros Hl2 Hx. revert before.
  induction l1 as [|a l1 IH]; intros before E; simpl in E.
  - subst l2. apply Forall_app in Hl2 as [_ Hl2].
    apply Forall_cons in Hl2 as [Hx' _]. congruence.
  - destruct before as [|b before]; simpl in E.
    + injection E as -> <-. by exists l1.
    + injection E as -> E. destruct (IH _ E) as (after' & -> & ->).
      by exists after'.
Qed.

Lemma string_app_nil_r (s : string) : s +:+ "" = s.
Proof.
  induction s as [|c s IH]; [done|].
  change (String c (s +:+ "") = String c s). by rewrite IH.
Qed.

Lemma contains_suffix (before needle : string) : contains needle (before +:+ needle).
Proof. exists before, "". by rewrite string_app_nil_r. Qed.

Section ClientProps.
Context {W Json : Type}.
Variable env : collaborators W Json.

Implicit Types (st : state W Json) (tc : tool_call) (evs : list (event Json)).

Lemma process_tool_call_decode_error tc st e :
  json_loads env (tc_arguments tc) = Raise e →
  process_tool_call env tc st =
    (add_output st
       [EPrint (DProcessingToolCall (tc_function_name tc));
        EPrint (match exn_cls e with
                | JSONDecodeError => DJsonError (tc_arguments tc) e
                | _ => DToolError (tc_function_name tc) e
                end)],
     Ok (ToolMsg (tc_id tc) (tc_function_name tc)
           (match exn_cls e with
            | JSONDecodeError => invalid_json_content
            | _ => tool_error_prefix +:+ exn_text e
            end))).
Proof.
  intros H. unfold_m. rewrite H. cbn.
  destruct (exn_cls e); cbn; by rewrite <- app_assoc.
Qed.

Lemma process_tool_call_returns tc st v w text :
  json_loads env (tc_arguments tc) = Ok v →
  call_tool env (tc_function_name tc) v (world st) = (w, Ok text) →
  process_tool_call env tc st =
    (State w (messages st)
       (output st ++
        [EPrint (DProcessingToolCall (tc_function_name tc));
         EPrint (DArguments (tc_function_name tc));
         ECallTool (tc_function_name tc) v (Ok text);
         EPrint (DToolResult text)]),
     Ok (ToolMsg (tc_id tc) (tc_function_name tc) text)).
Proof.
  intros H1 H2. unfold_m. rewrite H1. cbn. rewrite H2. cbn.
  by rewrite <- !app_assoc.
Qed.

Lemma process_tool_call_raises tc st v w e :
  json_loads env (tc_arguments tc) = Ok v →
  call_tool env (tc_function_name tc) v (world st) = (w, Raise e) →
  process_tool_call env tc st =
    (State w (messages st)
       (output st ++
        [EPrint (DProcessingToolCall (tc_function_name tc));
         EPrint (DArguments (tc_function_name tc));
         ECallTool (tc_function_name tc) v (Raise e);
         EPrint (match exn_cls e with
                 | JSONDecodeError => DJsonError (tc_arguments tc) e
                 | _ => DToolError (tc_function_name tc) e
                 end)]),
     Ok (ToolMsg (tc_id tc) (tc_function_name tc)
           (match exn_cls e with
            | JSONDecodeError => invalid_json_content
            | _ => tool_error_prefix +:+ exn_text e
            end))).
Proof.
  intros H1 H2. unfold_m. rewrite H1. cbn. rewrite H2. cbn.
  destruct (exn_cls e); cbn; by rewrite <- !app_assoc.
Qed.

(** Whatever the collaborators do, one intent gives one tool-role message
    that answers it; the history is not touched meanwhile. *)
Lemma process_tool_call_total tc st :
  ∃ w evs m,
    process_tool_call env tc st = (State w (messages st) (output st ++ evs), Ok m) ∧
    answers tc m ∧
    Forall (λ e, is_dispatch e = true) evs.
Proof.
  destruct (json_loads env (tc_arguments tc)) as [v|e0] eqn:Hj.
  - destruct (call_tool env (tc_function_name tc) v (world st)) as [w [r|e]] eqn:Hc.
    + erewrite process_tool_call_returns by done.
      eexists _, _, _. split; [done|]. split; [by eexists|].
      by repeat constructor.
    + erewrite process_tool_call_raises by done.
      eexists _, _, _. split; [done|]. split; [by eexists|].
      by repeat constructor.
  - erewrite process_tool_call_decode_error by done.
    eexists _, _, _. split; [done|]. split; [by eexists|].
    by repeat constructor.
Qed.

(** The batch: one message per intent, in the order of the intents, appended
    to what was collected so far. *)
Lemma process_tool_calls_total tcs : ∀ acc st,
  ∃ w evs results,
    process_tool_calls env tcs acc st =
      (State w (messages st) (output st ++ evs), Ok (acc ++ results)) ∧
    Forall2 answers tcs results ∧
    Forall (λ e, is_dispatch e = true) evs.
Proof.
  induction tcs as [|tc rest IH]; intros acc st; simpl.
  - exists (world st), [], []. rewrite !app_nil_r. destruct st. by repeat split.
  - destruct (process_tool_call_total tc st) as (w1 & evs1 & m & E1 & Ha & Hq1).
    unfold bind at 1. rewrite E1.
    destruct (IH (acc ++ [m]) (State w1 (messages st) (output st ++ evs1)))
      as (w2 & evs2 & results & E2 & Hf & Hq2).
    rewrite E2. cbn [world messages output].
    exists w2, (evs1 ++ evs2), (m :: results).
    rewrite <- !app_assoc. split; [done|]. split.
    + by constructor.
    + by apply Forall_app.
Qed.

Lemma turn_eof tools st :
  turn env tools None st =
    (add_output st [EInput None; EPrint (DLoopError eof_error)], Ok Break).
Proof. unfold_m. by rewrite <- app_assoc. Qed.

Lemma turn_exit tools u st :
  is_exit env u = true →
  turn env tools (Some u) st =
    (add_output st [EInput (Some u); EPrint DExitByUser], Ok Break).
Proof.
  unfold is_exit. intros H. unfold_m. rewrite H. cbn.
  by rewrite <- app_assoc.
Qed.

Lemma turn_blank tools u st :
  is_exit env u = false →
  is_blank env u = true →
  turn env tools (Some u) st = (add_output st [EInput (Some u)], Ok Continue).
Proof.
  unfold is_exit, is_blank. intros H1 H2. unfold_m. rewrite H1, H2. done.
Qed.

Lemma turn_first_raises tools u st w e :
  is_exit env u = false →
  is_blank env u = false →
  chat_completions_create env (first_request tools (messages st ++ [UserMsg u]))
    (world st) = (w, Raise e) →
  turn env tools (Some u) st =
    (State w (messages st ++ [UserMsg u])
       (output (asked u st) ++
        [ECompletion (first_request tools (messages st ++ [UserMsg u])) (Raise e);
         EPrint (DLoopError e)]),
     Ok Break).
Proof.
  unfold is_exit, is_blank. intros H1 H2 H3. unfold_m. rewrite H1, H2. cbn.
  rewrite H3. cbn. by rewrite <- !app_assoc.
Qed.

Lemma turn_direct tools u st w m :
  is_exit env u = false →
  is_blank env u = false →
  chat_completions_create env (first_request tools (messages st ++ [UserMsg u]))
    (world st) = (w, Ok m) →
  truthy_list (cm_tool_calls m) = false →
  turn env tools (Some u) st =
    (State w (messages st ++ [UserMsg u; AssistantMsg (cm_content m)])
       (output (asked u st) ++
        [ECompletion (first_request tools (messages st ++ [UserMsg u])) (Ok m);
         EPrint (DAssistant (cm_content m))]),
     Ok Continue).
Proof.
  unfold is_exit, is_blank. intros H1 H2 H3 H4. unfold_m. rewrite H1, H2. cbn.
  rewrite H3. cbn. rewrite H4. cbn. by rewrite <- !app_assoc.
Qed.

Lemma turn_tool_calls tools u st w m st2 results :
  is_exit env u = false →
  is_blank env u = false →
  chat_completions_create env (first_request tools (messages st ++ [UserMsg u]))
    (world st) = (w, Ok m) →
  truthy_list (cm_tool_calls m) = true →
  process_tool_calls env (default [] (cm_tool_calls m)) [] (dispatching tools u m w st)
    = (st2, Ok results) →
  turn env tools (Some u) st =
    match chat_completions_create env (second_request (messages st2 ++ results))
            (world st2) with
    | (w3, Ok m2) =>
        (State w3 (messages st2 ++ results ++ [AssistantMsg (cm_content m2)])
           (output st2 ++
            [EPrint DSendingToolResults;
             ECompletion (second_request (messages st2 ++ results)) (Ok m2);
             EPrint (DAssistant (cm_content m2))]),
         Ok Continue)
    | (w3, Raise e) =>
        (State w3 (messages st2 ++ results)
           (output st2 ++
            [EPrint DSendingToolResults;
             ECompletion (second_request (messages st2 ++ results)) (Raise e);
             EPrint (DLoopError e)]),
         Ok Break)
    end.
Proof.
  unfold is_exit, is_blank, dispatching, asked. intros H1 H2 H3 H4 H5.
  unfold_m. rewrite H1, H2. cbn.
  rewrite H3. cbn. rewrite H4. cbn. cbn in H5.
  rewrite <- !app_assoc in *. cbn in *. rewrite H5. cbn.
  destruct (chat_completions_create env _ (world st2)) as [w3 [m2|e]]; cbn;
    by rewrite <- !app_assoc.
Qed.


(** X20.  Failures inside a batch of intents.  The handlers of lines 219-224
    select by the class of the exception, whichever step raised it: a JSON
    decode error, of the decoding or of the invocation, gives the synthesized
    invalid-JSON message; every other exception, of the decoding or of the
    invocation, gives a message made of the error prefix and the failure
    text.  In each case the batch goes on with the next intent, and a batch
    always ends with one message per intent. *)
Theorem tool_call_failures_recovered tc rest acc st :
  (∀ e,
     json_loads env (tc_arguments tc) = Raise e →
     exn_cls e = JSONDecodeError →
     process_tool_calls env (tc :: rest) acc st =
       process_tool_calls env rest
         (acc ++ [ToolMsg (tc_id tc) (tc_function_name tc) invalid_json_content])
         (add_output st
            [EPrint (DProcessingToolCall (tc_function_name tc));
             EPrint (DJsonError (tc_arguments tc) e)])) ∧
  (∀ e,
     json_loads env (tc_arguments tc) = Raise e →
     exn_cls e ≠ JSONDecodeError →
     contains (exn_text e) (tool_error_prefix +:+ exn_text e) ∧
     process_tool_calls env (tc :: rest) acc st =
       process_tool_calls env rest
         (acc ++ [ToolMsg (tc_id tc) (tc_function_name tc)
                    (tool_error_prefix +:+ exn_text e)])
         (add_output st
            [EPrint (DProcessingToolCall (tc_function_name tc));
             EPrint (DToolError (tc_function_name tc) e)])) ∧
  (∀ v w e,
     json_loads env (tc_arguments tc) = Ok v →
     call_tool env (tc_function_name tc) v (world st) = (w, Raise e) →
     exn_cls e ≠ JSONDecodeError →
     contains (exn_text e) (tool_error_prefix +:+ exn_text e) ∧
     process_tool_calls env (tc :: rest) acc st =
       process_tool_calls env rest
         (acc ++ [ToolMsg (tc_id tc) (tc_function_name tc)
                    (tool_error_prefix +:+ exn_text e)])
         (State w (messages st)
            (output st ++
             [EPrint (DProcessingToolCall (tc_function_name tc));
              EPrint (DArguments (tc_function_name tc));
              ECallTool (tc_function_name tc) v (Raise e);
              EPrint (DToolError (tc_function_name tc) e)]))) ∧
  (∀ v w e,
     json_loads env (tc_arguments tc) = Ok v →
     call_tool env (tc_function_name tc) v (world st) = (w, Raise e) →
     exn_cls e = JSONDecodeError →
     process_tool_calls env (tc :: rest) acc st =
       process_tool_calls env rest
         (acc ++ [ToolMsg (tc_id tc) (tc_function_name tc) invalid_json_content])
         (State w (messages st)
            (output st ++
             [EPrint (DProcessingToolCall (tc_function_name tc));
              EPrint (DArguments (tc_function_name tc));
              ECallTool (tc_function_name tc) v (Raise e);
              EPrint (DJsonError (tc_arguments tc) e)]))) ∧
  (∃ st' results,
     process_tool_calls env (tc :: rest) acc st = (st', Ok (acc ++ results)) ∧
     length results = S (length rest) ∧
     messages st' = messages st).
Proof.
  split_and!.
  - intros e Hj Hcls. simpl. unfold bind at 1.
    rewrite (process_tool_call_decode_error tc st e Hj). by rewrite Hcls.
  - intros e Hj Hcls. split.
    + apply contains_suffix.
    + simpl. unfold bind at 1.
      rewrite (process_tool_call_decode_error tc st e Hj).
      by destruct (exn_cls e).
  - intros v w e Hj Hc Hcls. split.
    + apply contains_suffix.
    + simpl. unfold bind at 1.
      rewrite (process_tool_call_raises tc st v w e Hj Hc).
      by destruct (exn_cls e).
  - intros v w e Hj Hc Hcls. simpl. unfold bind at 1.
    rewrite (process_tool_call_raises tc st v w e Hj Hc).
    by rewrite Hcls.
  - destruct (process_tool_calls_total (tc :: rest) acc st)
      as (w & evs & results & E & Hf & _).
    eexists _, results. split; [exact E|]. split; [|done].
    apply Forall2_length in Hf. by rewrite <- Hf.
Qed.

(** C5.  In a turn that dispatched tool calls and whose second completion
    request returned the message [m2]: that request carries the history with
    all tool-role messages and no tool list (neither [tools] nor
    [tool_choice] is passed); the content of [m2] is printed as the answer and
    appended to the history as an assistant-role message; the loop goes on. *)
Theorem final_answer_after_tool_calls tools u st w m tcs st2 results w3 m2 :
  is_exit env u = false →
  is_blank env u = false →
  chat_completions_create env (first_request tools (messages st ++ [UserMsg u]))
    (world st) = (w, Ok m) →
  cm_tool_calls m = Some tcs →
  tcs ≠ [] →
  process_tool_calls env tcs [] (dispatching tools u m w st) = (st2, Ok results) →
  chat_completions_create env
    (second_request (messages st ++ [UserMsg u; AssistantObj m] ++ results))
    (world st2) = (w3, Ok m2) →
  let second := second_request (messages st ++ [UserMsg u; AssistantObj m] ++ results) in
  turn env tools (Some u) st =
    (State w3
       (req_messages second ++ [AssistantMsg (cm_content m2)])
       (output st2 ++
        [EPrint DSendingToolResults;
         ECompletion second (Ok m2);
         EPrint (DAssistant (cm_content m2))]),
     Ok Continue) ∧
  req_tools second = ToolsOmitted ∧
  req_tool_choice second = None ∧
  has_tool_list second = false ∧
  Forall2 answers tcs results.
Proof.
  intros H1 H2 H3 H4 H5 H6 H7 second.
  assert (Ht : truthy_list (cm_tool_calls m) = true).
  { rewrite H4. by destruct tcs. }
  destruct (process_tool_calls_total tcs [] (dispatching tools u m w st))
    as (w2 & evs & results' & E & Hf & Hq).
  rewrite E in H6. injection H6 as <- <-.
  cbn [world messages dispatching] in H7.
  assert (E' := E). rewrite <- (f_equal (default []) H4) in E' at 1.
  rewrite (turn_tool_calls tools u st w m _ results' H1 H2 H3 Ht E').
  cbn [world messages output dispatching].
  subst second. rewrite <- !(app_assoc (messages st)).
  rewrite H7. cbn [req_messages second_request].
  rewrite <- !(app_assoc (messages st)), <- !(app_assoc [_; _]).
  done.
Qed.

(** C7.  On a line that is empty after [strip()] (and is not the exit
    keyword) the turn does nothing but read the line: the history and the
    state of the collaborators are unchanged, nothing is printed, no
    completion request is issued, and the loop reads the next line. *)
Theorem blank_input_leaves_history tools u rest st :
  py_strip env u = "" →
  is_exit env u = false →
  turn env tools (Some u) st = (add_output st [EInput (Some u)], Ok Continue) ∧
  messages (fst (turn env tools (Some u) st)) = messages st ∧
  world (fst (turn env tools (Some u) st)) = world st ∧
  output (fst (turn env tools (Some u) st)) = output st ++ [EInput (Some u)] ∧
  chat_loop env tools (u :: rest) st =
    chat_loop env tools rest (add_output st [EInput (Some u)]).
Proof.
  intros Hs He.
  assert (Hb : is_blank env u = true) by (unfold is_blank; by rewrite Hs).
  assert (E := turn_blank tools u st He Hb).
  rewrite E. split_and!; try done.
  simpl. unfold bind at 1. by rewrite E.
Qed.

Lemma dispatch_turn_event tools (e : event Json) :
  is_dispatch e = true → turn_event tools e.
Proof. by destruct e. Qed.

Lemma turn_event_not_input tools (e : event Json) :
  turn_event tools e → is_input e = false.
Proof. by destruct e. Qed.

Lemma turn_trace tools line st :
  ∃ c st' evs,
    turn env tools line st = (st', Ok c) ∧
    output st' = output st ++ EInput line :: evs ∧
    Forall (turn_event tools) evs ∧
    (∀ u, line = Some u → is_exit env u = true →
          evs = [EPrint DExitByUser] ∧ c = Break) ∧
    (c = Continue → ∃ u, line = Some u ∧ is_exit env u = false).
Proof.
  destruct line as [u|].
  2:{ rewrite turn_eof. eexists _, _, _. split; [done|]. split; [done|].
      split; [by repeat constructor|]. split; [done|]. done. }
  destruct (is_exit env u) eqn:He.
  { rewrite turn_exit by done. eexists _, _, _. split; [done|]. split; [done|].
    split; [by repeat constructor|]. split; [done|]. done. }
  destruct (is_blank env u) eqn:Hb.
  { rewrite turn_blank by done. eexists _, _, _. split; [done|]. split; [done|].
    split; [by constructor|]. split; [congruence|]. by exists u. }
  destruct (chat_completions_create env
              (first_request tools (messages st ++ [UserMsg u])) (world st))
    as [w [m|e]] eqn:Hc.
  2:{ erewrite turn_first_raises by done. eexists _, _, _. split; [done|].
      cbn [output asked]. rewrite <- app_assoc. split; [done|].
      split; [repeat constructor; by right|]. split; [congruence|]. done. }
  destruct (truthy_list (cm_tool_calls m)) eqn:Ht.
  2:{ erewrite turn_direct by done. eexists _, _, _. split; [done|].
      cbn [output asked]. rewrite <- app_assoc. split; [done|].
      split; [repeat constructor; by right|]. split; [congruence|]. by exists u. }
  destruct (process_tool_calls_total (default [] (cm_tool_calls m)) []
              (dispatching tools u m w st)) as (w2 & evs & results & E & _ & Hq).
  erewrite turn_tool_calls by done.
  cbn [world messages output dispatching asked].
  assert (Hq' : Forall (turn_event tools) evs).
  { eapply Forall_impl; [exact Hq|]. intros e. apply dispatch_turn_event. }
  destruct (chat_completions_create env _ w2) as [w3 [m2|e]];
    cbn [output]; rewrite <- !app_assoc; cbn [app].
  - eexists _, _, _. split; [done|]. split; [done|].
    split; [|split; [congruence|by exists u]].
    repeat (apply Forall_cons; split; [first [done | by right]|]).
    apply Forall_app. split; [done|]. repeat constructor.
  - eexists _, _, _. split; [done|]. split; [done|].
    split; [|split; [congruence|done]].
    repeat (apply Forall_cons; split; [first [done | by right]|]).
    apply Forall_app. split; [done|]. repeat constructor.
Qed.

Lemma chat_loop_trace tools inputs : ∀ st,
  ∃ st' evs,
    chat_loop env tools inputs st = (st', Ok tt) ∧
    output st' = output st ++ evs ∧
    loop_trace env tools evs.
Proof.
  induction inputs as [|line rest IH]; intros st; simpl.
  - unfold bind, ret. rewrite turn_eof. eexists _, _. split; [done|].
    split; [done|]. split.
    + apply Forall_cons; split; [by left|].
      apply Forall_cons; split; [by right|]. constructor.
    + intros [|b [|b' before]] u after E; simplify_eq.
      by destruct before.
  - destruct (turn_trace tools (Some line) st) as (c & st1 & evs1 & E1 & Ho & Hf & Hx & Hc).
    unfold bind at 1. rewrite E1.
    assert (Hni : Forall (λ e, is_input e = false) evs1).
    { eapply Forall_impl; [exact Hf|]. intros e. apply turn_event_not_input. }
    assert (Hf1 : Forall (λ e, is_input e = true ∨ turn_event tools e)
                         (EInput (Some line) :: evs1)).
    { constructor; [by left|]. eapply Forall_impl; [exact Hf|]. by right. }
    destruct c.
    + destruct (IH st1) as (st2 & evs2 & E2 & Ho2 & Hf2 & Hx2).
      exists st2, (EInput (Some line) :: evs1 ++ evs2). split; [done|].
      rewrite Ho2, Ho, <- app_assoc. split; [done|]. split.
      * rewrite app_comm_cons. by apply Forall_app.
      * intros before u after E Hu.
        destruct Hc as (u' & [= <-] & Hne); [done|].
        destruct before as [|b before]; simpl in E.
        { injection E as <- _. congruence. }
        injection E as <- E.
        destruct (split_after_unmarked is_input evs1 evs2 before
                    (EInput (Some u)) after Hni eq_refl E) as (before' & -> & E').
        by apply (Hx2 before' u after).
    + exists st1, (EInput (Some line) :: evs1). unfold ret. split; [done|].
      split; [done|]. split; [done|].
      intros before u after E Hu.
      destruct before as [|b before]; simpl in E.
      * injection E as -> ->. by destruct (Hx u eq_refl Hu).
      * injection E as <- E. rewrite E in Hni.
        apply Forall_app in Hni as [_ Hni]. by apply Forall_cons in Hni as [? _].
Qed.

Lemma discover_tools_raises st w e :
  list_tools env (world st) = (w, Raise e) →
  discover_tools env st =
    (State w (messages st)
       (output st ++
        [EPrint DRequestingTools; EListTools (Raise e); EPrint (DToolsError e)]),
     Ok []).
Proof. intros H. unfold_m. rewrite H. cbn. by rewrite <- !app_assoc. Qed.

Lemma Forall_is_print_log (out : list diag) :
  Forall is_print (map (EPrint (Json := Json)) out).
Proof. induction out; by constructor. Qed.

Lemma discover_tools_trace st :
  ∃ w rl disc tools,
    discover_tools env st =
      (State w (messages st)
         (output st ++ EPrint DRequestingTools :: EListTools rl :: disc),
       Ok tools) ∧
    Forall is_print disc ∧
    (∀ e, rl = Raise e → disc = [EPrint (DToolsError e)] ∧ tools = []).
Proof.
  destruct (list_tools env (world st)) as [w [l|e]] eqn:Hl.
  2:{ rewrite (discover_tools_raises st w e Hl). eexists _, _, _, _.
      split; [done|]. split; [by repeat constructor|].
      by intros ? [= <-]. }
  unfold_m. rewrite Hl. cbn [world messages output].
  destruct l as [|t l]; cbn [truthy_list negb world messages output].
  - eexists _, _, _, _. rewrite <- !app_assoc. cbn [app].
    split; [done|]. split; [by repeat constructor|]. done.
  - destruct (translate_tools (t :: l)) as [out [ts|e]];
      cbn [fst snd world messages output]; rewrite <- !app_assoc; cbn [app].
    + eexists _, _, _, _.
      split; [done|]. split; [|done].
      constructor; [done|]. apply Forall_app. split; [apply Forall_is_print_log|].
      by repeat constructor.
    + eexists _, _, _, _.
      split; [done|]. split; [|done].
      constructor; [done|]. apply Forall_app. split; [apply Forall_is_print_log|].
      by repeat constructor.
Qed.

Lemma run_client_shape inputs w :
  run_shape env (output (fst (run_client env inputs (initial_state w))))
            (snd (run_client env inputs (initial_state w))).
Proof.
  unfold run_client, setup_openai, async_with, session_body, initial_state.
  unfold try_except, bind, ret, raise, print, emit, call, set_messages.
  cbn [world messages output app].
  destruct (openai_client env w) as [w1 [key|e]]; cbn [world messages output].
  2:{ left. split; [by repeat constructor|reflexivity]. }
  destruct (truthy_str key); cbn [negb world messages output].
  2:{ left. split; [by repeat constructor|reflexivity]. }
  destruct (stdio_client env w1) as [w2 [[]|e]]; cbn [world messages output].
  2:{ left. split; [by repeat constructor|reflexivity]. }
  destruct (client_session env w2) as [w3 [[]|e]]; cbn [world messages output].
  2:{ left. split; [by repeat constructor|reflexivity]. }
  destruct (initialize env w3) as [w4 [info|e]]; cbn [world messages output].
  2:{ left. split; [by repeat constructor|reflexivity]. }
  match goal with |- context [discover_tools env ?st] =>
    destruct (discover_tools_trace st) as (w5 & rl & disc & tools & -> & Hd & Hr)
  end.
  cbn [world messages output].
  match goal with |- context [chat_loop env tools inputs ?st] =>
    destruct (chat_loop_trace tools inputs st) as (st' & loop & -> & Ho & Hl)
  end.
  cbn [world messages output fst snd] in *.
  right. split; [done|].
  rewrite Ho. rewrite <- !app_assoc. cbn [app].
  exists (startup_trace key info), rl, disc, tools, loop.
  split; [reflexivity|]. split; [by eexists _, _|]. split; [|done].
  by repeat constructor.
Qed.

Lemma Forall_elem_false {A} (mark : A → bool) (before : list A) x after :
  Forall (λ a, mark a = false) (before ++ x :: after) → mark x = false.
Proof.
  intros H. apply Forall_app in H as [_ H]. by apply Forall_cons in H as [? _].
Qed.

(** C6.  In every run, once a line is read whose stripped, lower-cased form
    is the exit keyword, the rest of the output is: the farewell, the end of
    the chat, the release of the session and the release of the connection;
    no further line is read, no request is sent, and [run_client] returns. *)
Theorem exit_keyword_closes_session inputs w before u after :
  output (fst (run_client env inputs (initial_state w))) =
    before ++ EInput (Some u) :: after →
  py_lower env (py_strip env u) = exit_keyword →
  after = [EPrint DExitByUser; EPrint DChatEnded; EExit Session;
           EPrint DSessionClosed; EExit Connection; EPrint DConnectionClosed] ∧
  snd (run_client env inputs (initial_state w)) = Ok tt.
Proof.
  intros E Hu.
  assert (Hx : is_exit env u = true) by (by apply String.eqb_eq).
  destruct (run_client_shape inputs w)
    as [[Hq _]|(Hr & pre & rl & disc & tools & loop & E' & _ & Hpre & Hdisc & _ & _ & Hloop)].
  { rewrite E in Hq. apply Forall_app in Hq as [_ Hq].
    apply Forall_cons in Hq as [(Hi & _) _]. discriminate. }
  split; [|done].
  rewrite E in E'. symmetry in E'.
  assert (Hl1 : Forall (λ e, is_input e = false)
                  (pre ++ EListTools rl :: disc ++ [EPrint DChatBanner])).
  { apply Forall_app. split.
    - eapply Forall_impl; [exact Hpre|]. by intros e (? & _).
    - constructor; [done|]. apply Forall_app. split.
      + eapply Forall_impl; [exact Hdisc|]. by intros [].
      + by repeat constructor. }
  replace (pre ++ EListTools rl :: disc ++ EPrint DChatBanner :: loop ++ closing)
    with ((pre ++ EListTools rl :: disc ++ [EPrint DChatBanner]) ++ (loop ++ closing))
    in E' by (rewrite <- !app_assoc; cbn [app]; by rewrite <- !app_assoc).
  destruct (split_after_unmarked is_input _ _ before (EInput (Some u)) after
              Hl1 eq_refl E') as (before' & -> & E2).
  assert (Hcl : Forall (λ e : event Json, is_input e = false) closing)
    by (by repeat constructor).
  destruct (split_before_unmarked is_input _ _ before' (EInput (Some u)) after
              Hcl eq_refl E2) as (after' & E3 & ->).
  by rewrite (Hloop before' u after' E3 Hx).
Qed.


(** ** Release of the session and of the connection *)

Lemma has_exit_app res (l1 l2 : list (event Json)) :
  has_exit res (l1 ++ l2) = has_exit res l1 || has_exit res l2.
Proof.
  induction l1 as [|e l1 IH]; [done|].
  destruct e; simpl; rewrite ?IH; try done. by rewrite orb_assoc.
Qed.

Lemma has_exit_elem res (l : list (event Json)) :
  has_exit res l = true → EExit res ∈ l.
Proof.
  induction l as [|e l IH]; simpl; [done|].
  destruct e; try (intros H; right; by apply IH).
  intros [H|H]%orb_true_iff.
  - destruct res, res0; try done; left.
  - right. by apply IH.
Qed.

Lemma released_app_quiet (l1 l2 : list (event Json)) :
  Forall (λ e, is_acquire e = false) l1 →
  released (l1 ++ l2) = released l2.
Proof.
  induction 1 as [|e l1 He Hl1 IH]; [done|].
  destruct e; simpl in *; try done. by destruct r.
Qed.

Lemma released_split (l before : list (event Json)) res u after :
  released l = true →
  l = before ++ EEnter res (Ok u) :: after →
  has_exit res after = true.
Proof.
  revert l. induction before as [|b before IH]; intros l Hl ->; simpl in Hl.
  - by apply andb_true_iff in Hl as [? _].
  - apply (IH (before ++ EEnter res (Ok u) :: after)); [|done].
    destruct b; try done. destruct r; [|done].
    by apply andb_true_iff in Hl as [_ ?].
Qed.

Lemma run_client_released inputs w :
  released (output (fst (run_client env inputs (initial_state w)))) = true.
Proof.
  destruct (run_client_shape inputs w)
    as [[_ Hr]|(_ & pre & rl & disc & tools & loop & -> & (key & info & ->) &
                _ & Hdisc & _ & Hloop & _)]; [done|].
  assert (Hd : Forall (λ e : event Json, is_acquire e = false) disc).
  { eapply Forall_impl; [exact Hdisc|]. by intros []. }
  assert (Hl : Forall (λ e : event Json, is_acquire e = false) loop).
  { eapply Forall_impl; [exact Hloop|]. by intros [] [|]. }
  unfold startup_trace. cbn [app released has_exit].
  rewrite !has_exit_app. cbn [has_exit]. rewrite !has_exit_app.
  replace (has_exit Connection (closing (Json := Json))) with true by reflexivity.
  replace (has_exit Session (closing (Json := Json))) with true by reflexivity.
  rewrite !orb_true_r. cbn [andb].
  rewrite released_app_quiet by done. cbn [released].
  by rewrite released_app_quiet by done.
Qed.

(** X3.  In every run, whatever the collaborators do, a resource that was
    acquired (the connection to the tool server, the session) is released
    later in the run: on the exit keyword, at the end of the input, after an
    error in the loop and when the initialization raises. *)
Theorem resources_released inputs w res before after :
  output (fst (run_client env inputs (initial_state w))) =
    before ++ EEnter res (Ok tt) :: after →
  EExit res ∈ after.
Proof.
  intros E. apply has_exit_elem.
  exact (released_split _ before res tt after (run_client_released inputs w) E).
Qed.

(** X2.  A turn whose completion response carries no tool-call intent: the
    history gains the user message and one assistant message with the text of
    the response, which is printed; one completion request is sent and the
    tool server is not called. *)
Theorem direct_answer_turn tools u st w m :
  is_exit env u = false →
  is_blank env u = false →
  chat_completions_create env (first_request tools (messages st ++ [UserMsg u]))
    (world st) = (w, Ok m) →
  truthy_list (cm_tool_calls m) = false →
  turn env tools (Some u) st =
    (State w (messages st ++ [UserMsg u; AssistantMsg (cm_content m)])
       (output st ++
        [EInput (Some u); EPrint DSendingRequest;
         ECompletion (first_request tools (messages st ++ [UserMsg u])) (Ok m);
         EPrint (DAssistant (cm_content m))]),
     Ok Continue).
Proof.
  intros H1 H2 H3 H4. rewrite (turn_direct tools u st w m H1 H2 H3 H4).
  cbn [output asked]. by rewrite <- app_assoc.
Qed.

End ClientProps.


(** * Examples: the theorems at work on the concrete session *)

Lemma contains_occurs c needle hay :
  contains (String c needle) hay → occurs c hay = true.
Proof.
  intros (before & after & ->).
  induction before as [|b before IH].
  - change (occurs c (String c (needle +:+ after)) = true). simpl.
    destruct (Ascii.eqb_spec c c); [done|congruence].
  - change (occurs c (String b (before +:+ String c needle +:+ after)) = true).
    simpl. rewrite IH. by destruct (Ascii.eqb c b).
Qed.


(** C4 (the code answers a failed invocation as if the arguments had not
    decoded).  The payload of the intent for [parse] decodes, and the
    invocation fails with a JSON decode error of its own.  The handler of
    line 219, worded for the decoding of the arguments, takes it, because one
    [try] spans both steps: the diagnostic of the arguments is printed and
    the tool-role message carries the synthesized invalid-JSON text, in which
    the failure text does not occur.  The invocation of [divide], which fails
    with another exception, is answered as the claim says, with the failure
    text; the batch goes on in both cases. *)
Lemma invocation_json_error_hides_failure_text :
  json_loads Demo.with_tools (tc_arguments Demo.parse_call) = Ok "{}" ∧
  call_tool Demo.with_tools "parse" "{}" [] =
    ([], Raise (Exn JSONDecodeError Demo.json_error_text)) ∧
  process_tool_calls Demo.with_tools (Demo.parse_call :: drop 2 Demo.three_calls) []
    (Demo.at_loop []) =
    (State [] [SystemMsg system_prompt]
       [EPrint (DProcessingToolCall "parse"); EPrint (DArguments "parse");
        ECallTool "parse" "{}" (Raise (Exn JSONDecodeError Demo.json_error_text));
        EPrint (DJsonError "{}" (Exn JSONDecodeError Demo.json_error_text));
        EPrint (DProcessingToolCall "divide"); EPrint (DArguments "divide");
        ECallTool "divide" "{a: 2, b: 0}"
          (Raise (Exn (OtherException "McpError") "Unknown tool: divide"));
        EPrint (DToolError "divide"
                  (Exn (OtherException "McpError") "Unknown tool: divide"))],
     Ok [ToolMsg "call_9" "parse" invalid_json_content;
         ToolMsg "call_3" "divide" (tool_error_prefix +:+ "Unknown tool: divide")]) ∧
  ¬ contains Demo.json_error_text invalid_json_content ∧
  contains "Unknown tool: divide" (tool_error_prefix +:+ "Unknown tool: divide").
Proof.
  split; [reflexivity|]. split; [reflexivity|]. split; [reflexivity|]. split.
  - intros H. apply contains_occurs in H. vm_compute in H. discriminate.
  - apply contains_suffix.
Qed.

(** X20 at work: the payload of the second intent is not JSON, and the batch
    goes on with the third; a payload with an integer of too many digits
    makes the decoder raise a [ValueError], which is answered with the
    failure text. *)
Lemma tool_call_failures_witness :
  json_loads Demo.with_tools "a=2" = Raise (Exn JSONDecodeError Demo.json_error_text) ∧
  process_tool_calls Demo.with_tools (drop 1 Demo.three_calls)
    [ToolMsg "call_1" "add" "4"] (Demo.at_loop []) =
  process_tool_calls Demo.with_tools (drop 2 Demo.three_calls)
    ([ToolMsg "call_1" "add" "4"] ++ [ToolMsg "call_2" "add" invalid_json_content])
    (add_output (Demo.at_loop [])
       [EPrint (DProcessingToolCall "add");
        EPrint (DJsonError "a=2" (Exn JSONDecodeError Demo.json_error_text))]) ∧
  json_loads Faults.digit_limit "{a: 1000}" = Raise Faults.digits_error ∧
  process_tool_calls Faults.digit_limit
    [{| tc_id := "call_4"; tc_function_name := "add"; tc_arguments := "{a: 1000}" |}]
    [] (Demo.at_loop []) =
  process_tool_calls Faults.digit_limit []
    ([] ++ [ToolMsg "call_4" "add" (tool_error_prefix +:+ exn_text Faults.digits_error)])
    (add_output (Demo.at_loop [])
       [EPrint (DProcessingToolCall "add");
        EPrint (DToolError "add" Faults.digits_error)]).
Proof.
  split; [reflexivity|]. split.
  - exact (proj1 (tool_call_failures_recovered Demo.with_tools
                    {| tc_id := "call_2"; tc_function_name := "add";
                       tc_arguments := "a=2" |}
                    (drop 2 Demo.three_calls) [ToolMsg "call_1" "add" "4"]
                    (Demo.at_loop []))
                 (Exn JSONDecodeError Demo.json_error_text) eq_refl eq_refl).
  - split; [reflexivity|].
    refine (proj2 (proj1 (proj2 (tool_call_failures_recovered Faults.digit_limit
                    {| tc_id := "call_4"; tc_function_name := "add";
                       tc_arguments := "{a: 1000}" |}
                    [] [] (Demo.at_loop [])))
                 Faults.digits_error eq_refl _)).
    discriminate.
Defined.


(** C5 at work, on the scenario of the specification: the user sends
    [2 + 2], the response asks for [add], the server answers [4], the final
    response is [2 + 2 = 4]. *)
Lemma final_answer_witness :
  messages (fst (turn Demo.with_tools Demo.translated_add (Some "2 + 2")
                   (Demo.at_loop [Ok Demo.asks_add; Ok (Demo.says "2 + 2 = 4")]))) =
    [SystemMsg system_prompt; UserMsg "2 + 2"; AssistantObj Demo.asks_add;
     ToolMsg "call_1" "add" "4"; AssistantMsg (Some "2 + 2 = 4")] ∧
  snd (turn Demo.with_tools Demo.translated_add (Some "2 + 2")
         (Demo.at_loop [Ok Demo.asks_add; Ok (Demo.says "2 + 2 = 4")])) = Ok Continue.
Proof.
  pose proof (final_answer_after_tool_calls Demo.with_tools Demo.translated_add
                "2 + 2" (Demo.at_loop [Ok Demo.asks_add; Ok (Demo.says "2 + 2 = 4")])
                [Ok (Demo.says "2 + 2 = 4")] Demo.asks_add (take 1 Demo.three_calls)
                (fst (process_tool_calls Demo.with_tools (take 1 Demo.three_calls) []
                        (dispatching Demo.translated_add "2 + 2" Demo.asks_add
                           [Ok (Demo.says "2 + 2 = 4")]
                           (Demo.at_loop [Ok Demo.asks_add; Ok (Demo.says "2 + 2 = 4")]))))
                [ToolMsg "call_1" "add" "4"] [] (Demo.says "2 + 2 = 4")) as H.
  destruct H as [E _].
  - vm_compute; reflexivity.
  - vm_compute; reflexivity.
  - reflexivity.
  - reflexivity.
  - discriminate.
  - vm_compute; reflexivity.
  - reflexivity.
  - rewrite E. split; reflexivity.
Defined.

(** C6 at work: the exit keyword in mixed case between blanks; the line after
    it is never read. *)
Lemma exit_keyword_witness :
  py_lower Demo.with_tools (py_strip Demo.with_tools "  ВыХоД  ") = exit_keyword ∧
  output (fst (run_client Demo.with_tools ["  ВыХоД  "; "ignored"] (initial_state []))) =
    (Demo.startup_output ++
     [EListTools (Ok [add_tool]); EPrint (DToolsReceived 1);
      EPrint DToolsConverted; EPrint DChatBanner]) ++
    EInput (Some "  ВыХоД  ") ::
    [EPrint DExitByUser; EPrint DChatEnded; EExit Session;
     EPrint DSessionClosed; EExit Connection; EPrint DConnectionClosed] ∧
  snd (run_client Demo.with_tools ["  ВыХоД  "; "ignored"] (initial_state [])) = Ok tt.
Proof.
  assert (Hu : py_lower Demo.with_tools (py_strip Demo.with_tools "  ВыХоД  ")
               = exit_keyword) by (vm_compute; reflexivity).
  assert (E : output (fst (run_client Demo.with_tools ["  ВыХоД  "; "ignored"]
                             (initial_state []))) =
              (Demo.startup_output ++
               [EListTools (Ok [add_tool]); EPrint (DToolsReceived 1);
                EPrint DToolsConverted; EPrint DChatBanner]) ++
              EInput (Some "  ВыХоД  ") ::
              drop 20 (output (fst (run_client Demo.with_tools
                                      ["  ВыХоД  "; "ignored"] (initial_state [])))))
    by (vm_compute; reflexivity).
  destruct (exit_keyword_closes_session Demo.with_tools _ _ _ _ _ E Hu) as [Ha Hr].
  rewrite Ha in E. exact (conj Hu (conj E Hr)).
Defined.

(** C7 at work: a line of blanks. *)
Lemma blank_input_witness :
  py_strip Demo.with_tools "   " = "" ∧
  is_exit Demo.with_tools "   " = false ∧
  turn Demo.with_tools Demo.translated_add (Some "   ")
    (Demo.at_loop [Ok (Demo.says "never asked")]) =
    (add_output (Demo.at_loop [Ok (Demo.says "never asked")]) [EInput (Some "   ")],
     Ok Continue).
Proof.
  assert (Hs : py_strip Demo.with_tools "   " = "") by (vm_compute; reflexivity).
  assert (He : is_exit Demo.with_tools "   " = false) by (vm_compute; reflexivity).
  exact (conj Hs (conj He
    (proj1 (blank_input_leaves_history Demo.with_tools Demo.translated_add "   " []
              (Demo.at_loop [Ok (Demo.says "never asked")]) Hs He)))).
Defined.


(** X2 at work, on the scenario of the specification: the user sends [hello]
    and the response is the text [Hi there]. *)
Lemma direct_answer_witness :
  turn Demo.with_tools Demo.translated_add (Some "hello")
    (Demo.at_loop [Ok (Demo.says "Hi there")]) =
    (State [] [SystemMsg system_prompt; UserMsg "hello"; AssistantMsg (Some "Hi there")]
       [EInput (Some "hello"); EPrint DSendingRequest;
        ECompletion
          (first_request Demo.translated_add [SystemMsg system_prompt; UserMsg "hello"])
          (Ok (Demo.says "Hi there"));
        EPrint (DAssistant (Some "Hi there"))],
     Ok Continue).
Proof.
  apply (direct_answer_turn Demo.with_tools Demo.translated_add "hello"
           (Demo.at_loop [Ok (Demo.says "Hi there")]) [] (Demo.says "Hi there")).
  - vm_compute; reflexivity.
  - vm_compute; reflexivity.
  - reflexivity.
  - reflexivity.
Defined.

(** X3 at work: the input ends at once; the connection, acquired as the
    seventh thing the run does, is released. *)
Lemma resources_released_witness :
  output (fst (run_client Demo.with_tools [] (initial_state []))) =
    take 6 Demo.startup_output ++
    EEnter Connection (Ok tt) ::
    drop 7 (output (fst (run_client Demo.with_tools [] (initial_state [])))) ∧
  EExit Connection ∈
    drop 7 (output (fst (run_client Demo.with_tools [] (initial_state [])))).
Proof.
  assert (E : output (fst (run_client Demo.with_tools [] (initial_state []))) =
              take 6 Demo.startup_output ++
              EEnter Connection (Ok tt) ::
              drop 7 (output (fst (run_client Demo.with_tools [] (initial_state [])))))
    by (vm_compute; reflexivity).
  exact (conj E (resources_released Demo.with_tools _ _ _ _ _ E)).
Defined.

(** * Further properties of the translator *)

(** The warnings of the loop of lines 52-69, when it does not raise: one per
    argument without a usable name, each with the tool's name. *)
Lemma translate_arguments_log t args : ∀ p out p',
  translate_arguments t args p = (out, Ok p') →
  out = map (λ _, DWarnUnnamedArgument (getattr (t_name t) None))
            (filter (λ arg, truthy_str (getattr (a_name arg) None) = false) args).
Proof.
  induction args as [|arg rest IH]; intros p out p'; simpl.
  - by intros [= <- <-].
  - unfold log_bind at 1.
    destruct (translate_argument t arg p) as [o1 [p1|e]] eqn:E1; [|discriminate].
    destruct (translate_arguments t rest p1) as [o2 r2] eqn:E2.
    intros [= <- ->]. rewrite (IH _ _ _ E2). rewrite filter_cons.
    unfold translate_argument in E1.
    destruct (truthy_str (getattr (a_name arg) None)) eqn:Ht; simpl in E1.
    + rewrite decide_False by done.
      destruct (getattr (a_name arg) None); by injection E1 as <- _.
    + rewrite decide_True by done.
      destruct (t_name t); simpl in E1; [discriminate|by injection E1 as <- _..].
Qed.

Lemma required_keys_filter args :
  omap arg_required_key args =
  named_keys (filter (λ arg, truthy_bool (getattr (a_required arg) (Some false)) = true)
                     args).
Proof.
  induction args as [|arg rest IH]; [done|].
  rewrite filter_cons. unfold named_keys in *. cbn [omap list_omap].
  unfold arg_required_key at 1.
  destruct (truthy_bool (getattr (a_required arg) (Some false))) eqn:Hr.
  - rewrite decide_True by done. cbn [omap list_omap]. by rewrite IH.
  - rewrite decide_False by done. exact IH.
Qed.

(** X4.  In a translated descriptor the property names are exactly the
    non-empty names of the arguments: an argument without a usable name adds
    nothing, every named argument has its property.  Every property is typed
    [string], inside an [object] schema of a [function] descriptor. *)
Theorem translated_property_keys t out tool :
  mcp_tool_to_openai_tool t = (out, Ok tool) →
  let params := f_parameters (ot_function tool) in
  (∀ key, key ∈ dom (properties params) ↔
          ∃ arg, arg ∈ arguments_of t ∧ a_name arg = Val key ∧ key ≠ "") ∧
  (∀ key p, properties params !! key = Some p → p_type p = "string") ∧
  params_type params = "object" ∧
  ot_type tool = "function".
Proof.
  intros H params. subst params.
  apply mcp_tool_to_openai_tool_ok in H as (Hty & _ & _ & Hpt & Hp & _).
  rewrite Hp. split_and!; [|  |done..].
  - intros key. rewrite dom_foldl_add_property, dom_empty_L, (left_id_L ∅ (∪)).
    rewrite elem_of_list_to_set. unfold named_keys. rewrite list_elem_of_omap.
    split.
    + intros (arg & Hin & Hk). apply arg_key_named in Hk as [? ?]. by exists arg.
    + intros (arg & Hin & Hn & Hne). exists arg. split; [done|].
      by apply arg_key_named.
  - intros key p Hl.
    apply lookup_foldl_add_property_inv in Hl as [Hl|(arg & _ & _ & ->)].
    + by rewrite lookup_empty in Hl.
    + done.
Qed.

(** X4 at work on [subtract_tool]: only [b] is a property. *)
Lemma translated_property_keys_witness :
  ∃ out tool,
    mcp_tool_to_openai_tool subtract_tool = (out, Ok tool) ∧
    "b" ∈ dom (properties (f_parameters (ot_function tool))) ∧
    "" ∉ dom (properties (f_parameters (ot_function tool))).
Proof.
  eexists _, _. split; [reflexivity|].
  destruct (translated_property_keys subtract_tool _ _ eq_refl) as (Hdom & _).
  split.
  - apply Hdom. eexists. split; [right; left|]. by split.
  - intros (arg & _ & _ & Hne)%Hdom. by apply Hne.
Defined.

(** X5.  The required list of a translated descriptor holds the names of the
    named arguments whose [required] attribute is true, in the order of the
    arguments; a name that occurs twice is listed twice. *)
Theorem required_in_argument_order t out tool :
  mcp_tool_to_openai_tool t = (out, Ok tool) →
  required (f_parameters (ot_function tool)) =
  named_keys (filter (λ arg, truthy_bool (getattr (a_required arg) (Some false)) = true)
                     (arguments_of t)).
Proof.
  intros H. apply mcp_tool_to_openai_tool_ok in H as (_ & _ & _ & _ & _ & Hr).
  by rewrite Hr, required_keys_filter.
Qed.

(** X5 at work on [duplicate_tool]: [a] is required twice. *)
Lemma required_in_argument_order_witness :
  ∃ out tool,
    mcp_tool_to_openai_tool duplicate_tool = (out, Ok tool) ∧
    required (f_parameters (ot_function tool)) = ["a"; "a"].
Proof.
  eexists _, _. split; [reflexivity|].
  exact (required_in_argument_order duplicate_tool _ _ eq_refl).
Defined.

(** X6.  When several arguments have the same name, the property of that name
    is the translation of the last of them: an argument with a non-empty name
    that no later argument repeats is found under its name with its own
    description (the empty string when it has none). *)
Theorem last_argument_wins t out tool before arg after key :
  mcp_tool_to_openai_tool t = (out, Ok tool) →
  arguments_of t = before ++ arg :: after →
  a_name arg = Val key →
  key ≠ "" →
  key ∉ named_keys after →
  properties (f_parameters (ot_function tool)) !! key =
    Some {| p_type := "string";
            p_description := Some (description_text (a_description arg)) |}.
Proof.
  intros H Hargs Hn Hne Hnot.
  apply mcp_tool_to_openai_tool_ok in H as (_ & _ & _ & _ & Hp & _).
  rewrite Hp, Hargs, foldl_app. simpl.
  rewrite lookup_foldl_add_property_other by done.
  unfold add_property.
  assert (arg_key arg = Some key) as -> by (by apply arg_key_named).
  by rewrite lookup_insert_eq.
Qed.

(** X6 at work on [duplicate_tool]: the second [a] is the one that counts. *)
Lemma last_argument_wins_witness :
  ∃ out tool,
    mcp_tool_to_openai_tool duplicate_tool = (out, Ok tool) ∧
    properties (f_parameters (ot_function tool)) !! "a" =
      Some {| p_type := "string"; p_description := Some "again" |}.
Proof.
  eexists _, _. split; [reflexivity|].
  refine (last_argument_wins duplicate_tool _ _
            [ {| a_name := Val "a"; a_description := Null; a_required := Val true |} ]
            _ [] "a" eq_refl eq_refl eq_refl _ _).
  - discriminate.
  - intros H. inversion H.
Defined.

(** X7.  A translation that produces a descriptor prints one warning for each
    argument without a usable name (absent, [None] or empty), in order, each
    with the name of the tool, and nothing else. *)
Theorem one_warning_per_unnamed_argument t out tool :
  mcp_tool_to_openai_tool t = (out, Ok tool) →
  out = map (λ _, DWarnUnnamedArgument (getattr (t_name t) None))
            (filter (λ arg, truthy_str (getattr (a_name arg) None) = false)
                    (arguments_of t)).
Proof.
  unfold mcp_tool_to_openai_tool, arguments_of.
  destruct (truthy_list (getattr (t_arguments t) None)) eqn:Htl.
  - unfold log_bind at 1.
    destruct (translate_arguments t _ _) as [o [p|e]] eqn:E; [|discriminate].
    simpl. intros [= <- _]. rewrite app_nil_r.
    exact (translate_arguments_log _ _ _ _ _ E).
  - simpl. intros [= <- _].
    by destruct (getattr (t_arguments t) None) as [[|]|].
Qed.

(** X7 at work on [subtract_tool]: one argument without a name. *)
Lemma one_warning_per_unnamed_argument_witness :
  ∃ out tool,
    mcp_tool_to_openai_tool subtract_tool = (out, Ok tool) ∧
    out = [DWarnUnnamedArgument (Some "subtract")].
Proof.
  eexists _, _. split; [reflexivity|].
  exact (one_warning_per_unnamed_argument subtract_tool _ _ eq_refl).
Defined.

(** * Further properties of the tool discovery *)

Lemma translate_tools_ok l : ∀ out ts,
  translate_tools l = (out, Ok ts) →
  Forall2 (λ t ot, ∃ o, mcp_tool_to_openai_tool t = (o, Ok ot)) l ts.
Proof.
  induction l as [|t l IH]; intros out ts; simpl.
  - intros [= _ <-]. constructor.
  - unfold log_bind at 1.
    destruct (mcp_tool_to_openai_tool t) as [o1 [ot|e]] eqn:E1; [|discriminate].
    unfold log_bind at 1.
    destruct (translate_tools l) as [o2 [ts'|e]] eqn:E2; [|discriminate].
    simpl. intros [= _ <-]. constructor; [by eexists|]. by eapply IH.
Qed.

Lemma translator_named_returns t :
  t_name t ≠ Missing → ∃ out tool, mcp_tool_to_openai_tool t = (out, Ok tool).
Proof.
  intros Hname. unfold mcp_tool_to_openai_tool. destruct (truthy_list _).
  - destruct (translate_arguments_total t
                (default [] (getattr (t_arguments t) None)) empty_parameters
                (or_introl Hname)) as (o & p & E).
    unfold log_bind. rewrite E. simpl. by eexists _, _.
  - simpl. by eexists _, _.
Qed.

Lemma translate_tools_named l :
  Forall (λ t, t_name t ≠ Missing) l →
  ∃ out ts, translate_tools l = (out, Ok ts).
Proof.
  induction 1 as [|t l Ht Hl (o2 & ts & E2)]; simpl.
  - by eexists _, _.
  - destruct (translator_named_returns t Ht) as (o1 & ot & E1).
    unfold log_bind. rewrite E1, E2. simpl. by eexists _, _.
Qed.

Lemma translate_tools_raises l1 bad l2 o e :
  Forall (λ t, t_name t ≠ Missing) l1 →
  mcp_tool_to_openai_tool bad = (o, Raise e) →
  ∃ out, translate_tools (l1 ++ bad :: l2) = (out, Raise e).
Proof.
  intros Hl1 Hbad. induction Hl1 as [|t l1 Ht Hl1 (out & E)]; simpl.
  - unfold log_bind. rewrite Hbad. by eexists.
  - destruct (translator_named_returns t Ht) as (o1 & ot & E1).
    unfold log_bind at 1. rewrite E1.
    unfold log_bind at 1. rewrite E. by eexists.
Qed.

Section Discovery.
Context {W Json : Type}.
Variable env : collaborators W Json.

Implicit Types (st : state W Json).

(** X8.  When the server lists tools that all have a name attribute, the
    discovery translates every one of them, in the order of the list, and
    keeps the names: the result has one descriptor per listed tool. *)
Theorem discovery_translates_every_tool st w l :
  list_tools env (world st) = (w, Ok l) →
  l ≠ [] →
  Forall (λ t, t_name t ≠ Missing) l →
  ∃ out ts,
    discover_tools env st =
      (State w (messages st)
         (output st ++
          [EPrint DRequestingTools; EListTools (Ok l);
           EPrint (DToolsReceived (length l))] ++
          map EPrint out ++ [EPrint DToolsConverted]),
       Ok ts) ∧
    Forall2 (λ t ot, (∃ o, mcp_tool_to_openai_tool t = (o, Ok ot)) ∧
                     f_name (ot_function ot) = getattr (t_name t) (Some "unknown_tool"))
            l ts.
Proof.
  intros Hl Hne Hnamed.
  destruct (translate_tools_named l Hnamed) as (out & ts & E).
  exists out, ts. split.
  - unfold_m. rewrite Hl. cbn [world messages output].
    destruct l as [|t l]; [done|]. cbn [truthy_list negb world messages output].
    rewrite E. cbn [fst snd world messages output].
    by rewrite <- !app_assoc.
  - eapply Forall2_impl; [exact (translate_tools_ok _ _ _ E)|].
    intros t ot (o & Ho). split; [by eexists|].
    by apply mcp_tool_to_openai_tool_ok in Ho as (_ & ? & _).
Qed.

(** X9.  One descriptor that cannot be translated loses every tool: when the
    translation of a listed tool raises, after tools that were translated, the
    discovery prints the error and goes on with an empty tool list. *)
Theorem bad_descriptor_drops_all_tools st w l1 bad l2 o e :
  list_tools env (world st) = (w, Ok (l1 ++ bad :: l2)) →
  Forall (λ t, t_name t ≠ Missing) l1 →
  mcp_tool_to_openai_tool bad = (o, Raise e) →
  ∃ out,
    discover_tools env st =
      (State w (messages st)
         (output st ++
          [EPrint DRequestingTools; EListTools (Ok (l1 ++ bad :: l2));
           EPrint (DToolsReceived (length (l1 ++ bad :: l2)))] ++
          map EPrint out ++ [EPrint (DToolsError e)]),
       Ok []).
Proof.
  intros Hl Hnamed Hbad.
  destruct (translate_tools_raises l1 bad l2 o e Hnamed Hbad) as (out & E).
  exists out. unfold_m. rewrite Hl. cbn [world messages output].
  destruct (l1 ++ bad :: l2) as [|t l] eqn:El; [by destruct l1|].
  cbn [truthy_list negb world messages output].
  rewrite E. cbn [fst snd world messages output].
  by rewrite <- !app_assoc.
Qed.

End Discovery.

(** * Further properties of the chat loop *)

Section LoopProps.
Context {W Json : Type}.
Variable env : collaborators W Json.

Implicit Types (st : state W Json) (tc : tool_call) (evs : list (event Json)).

(** ** The tool server during a dispatch *)

Lemma tool_calls_of_app evs1 evs2 :
  tool_calls_of (evs1 ++ evs2) = tool_calls_of evs1 ++ tool_calls_of evs2.
Proof. apply omap_app. Qed.

Lemma process_tool_call_calls tc st :
  ∃ w devs m,
    process_tool_call env tc st = (State w (messages st) (output st ++ devs), Ok m) ∧
    tool_calls_of devs = option_list (decoded_call env tc).
Proof.
  unfold decoded_call.
  destruct (json_loads env (tc_arguments tc)) as [v|e0] eqn:Hj.
  - destruct (call_tool env (tc_function_name tc) v (world st)) as [w [r|e]] eqn:Hc.
    + erewrite process_tool_call_returns by done. by eexists _, _, _.
    + erewrite process_tool_call_raises by done. by eexists _, _, _.
  - erewrite process_tool_call_decode_error by done. by eexists _, _, _.
Qed.

Lemma process_tool_calls_calls tcs : ∀ acc st,
  ∃ w devs results,
    process_tool_calls env tcs acc st =
      (State w (messages st) (output st ++ devs), Ok results) ∧
    tool_calls_of devs = omap (decoded_call env) tcs.
Proof.
  induction tcs as [|tc rest IH]; intros acc st; simpl.
  - exists (world st), [], acc. rewrite app_nil_r. by destruct st.
  - destruct (process_tool_call_calls tc st) as (w1 & devs1 & m & E1 & Hc1).
    unfold bind at 1. rewrite E1.
    destruct (IH (acc ++ [m]) (State w1 (messages st) (output st ++ devs1)))
      as (w2 & devs2 & results & E2 & Hc2).
    rewrite E2. cbn [world messages output].
    exists w2, (devs1 ++ devs2), results. rewrite <- app_assoc. split; [done|].
    rewrite tool_calls_of_app, Hc1, Hc2. by destruct (decoded_call env tc).
Qed.

(** X10.  While a batch of intents is dispatched, the tool server is called
    once for each intent whose payload decodes, in the order of the intents,
    with the function name of the intent and the decoded payload; an intent
    whose payload does not decode leads to no call. *)
Theorem tool_server_called_per_decodable_intent tcs acc st :
  ∃ devs,
    output (fst (process_tool_calls env tcs acc st)) = output st ++ devs ∧
    tool_calls_of devs = omap (decoded_call env) tcs.
Proof.
  destruct (process_tool_calls_calls tcs acc st) as (w & devs & results & E & Hc).
  exists devs. by rewrite E.
Qed.

(** ** One turn, as a relation *)

Lemma turn_outcome_complete tools line st :
  ∃ evs c w' ms',
    turn env tools line st = (State w' ms' (output st ++ evs), Ok c) ∧
    turn_outcome env tools st line evs c w' ms'.
Proof.
  destruct line as [u|].
  2:{ rewrite turn_eof. eexists _, _, _, _. split; [done|]. constructor. }
  destruct (is_exit env u) eqn:He.
  { rewrite turn_exit by done. eexists _, _, _, _. split; [done|]. by constructor. }
  destruct (is_blank env u) eqn:Hb.
  { rewrite turn_blank by done. eexists _, _, _, _. split; [done|]. by constructor. }
  destruct (chat_completions_create env
              (first_request tools (messages st ++ [UserMsg u])) (world st))
    as [w [m|e]] eqn:Hc.
  2:{ erewrite turn_first_raises by done. cbn [output asked].
      rewrite <- app_assoc. cbn [app].
      eexists _, _, _, _. split; [done|]. by constructor. }
  destruct (truthy_list (cm_tool_calls m)) eqn:Ht.
  2:{ erewrite turn_direct by done. cbn [output asked].
      rewrite <- app_assoc. cbn [app].
      eexists _, _, _, _. split; [done|]. by constructor. }
  destruct (process_tool_calls_total env (default [] (cm_tool_calls m)) []
              (dispatching tools u m w st)) as (w2 & devs & results & E & Hf & Hq).
  cbn [app] in E.
  erewrite turn_tool_calls by done.
  cbn [world messages output dispatching asked].
  destruct (chat_completions_create env _ w2) as [w3 r2] eqn:Hc2.
  pose proof (TurnTools env tools st u w m w2 devs results w3 r2 He Hb Hc Ht) as HT.
  cbn [messages dispatching] in E. rewrite <- (app_assoc (messages st)) in Hc2.
  specialize (HT E Hf Hq Hc2).
  destruct r2 as [m2|e]; eexists _, _, _, _; (split; [|exact HT]);
    cbn [output dispatching asked]; rewrite <- !app_assoc; cbn [app];
    by rewrite ?app_nil_r.
Qed.

(** ** The loop, turn after turn *)

Lemma chat_loop_outcomes tools
    (Q : list string → state W Json → list (event Json) → state W Json → Prop) :
  (∀ st evs c w' ms',
     turn_outcome env tools st None evs c w' ms' →
     Q [] st evs (State w' ms' (output st ++ evs))) →
  (∀ l rest st evs w' ms',
     turn_outcome env tools st (Some l) evs Break w' ms' →
     Q (l :: rest) st evs (State w' ms' (output st ++ evs))) →
  (∀ l rest st evs1 w1 ms1 evs2 st2,
     turn_outcome env tools st (Some l) evs1 Continue w1 ms1 →
     output st2 = (output st ++ evs1) ++ evs2 →
     Q rest (State w1 ms1 (output st ++ evs1)) evs2 st2 →
     Q (l :: rest) st (evs1 ++ evs2) st2) →
  ∀ inputs st,
    ∃ st' evs,
      chat_loop env tools inputs st = (st', Ok tt) ∧
      output st' = output st ++ evs ∧
      Q inputs st evs st'.
Proof.
  intros Heof Hbreak Hcont. induction inputs as [|l rest IH]; intros st; simpl.
  - destruct (turn_outcome_complete tools None st) as (evs & c & w' & ms' & E & HT).
    unfold bind, ret. rewrite E. eexists _, evs. split; [done|]. split; [done|].
    by eapply Heof.
  - destruct (turn_outcome_complete tools (Some l) st)
      as (evs1 & c & w1 & ms1 & E & HT).
    unfold bind at 1. rewrite E. destruct c.
    + destruct (IH (State w1 ms1 (output st ++ evs1))) as (st2 & evs2 & E2 & Ho & HQ).
      cbn [output] in Ho.
      exists st2, (evs1 ++ evs2). split; [done|].
      split; [by rewrite Ho, app_assoc|]. by eapply Hcont.
    + unfold ret. eexists _, evs1. split; [done|]. split; [done|].
      by eapply Hbreak.
Qed.

(** ** The run up to the loop *)

Lemma discover_tools_discovered st :
  ∃ w rl disc,
    list_tools env (world st) = (w, rl) ∧
    discover_tools env st =
      (State w (messages st)
         (output st ++ EPrint DRequestingTools :: EListTools rl :: disc),
       Ok (discovered rl)) ∧
    Forall is_print disc.
Proof.
  destruct (list_tools env (world st)) as [w [l|e]] eqn:Hl.
  2:{ rewrite (discover_tools_raises env st w e Hl). eexists _, _, _.
      split; [done|]. split; [done|]. by repeat constructor. }
  exists w, (Ok l). unfold_m. rewrite Hl. cbn [world messages output].
  destruct l as [|t l]; cbn [truthy_list negb world messages output].
  - eexists. rewrite <- !app_assoc. cbn [app].
    split; [done|]. split; [done|]. by repeat constructor.
  - unfold discovered.
    destruct (translate_tools (t :: l)) as [out [ts|e]];
      cbn [fst snd world messages output]; rewrite <- !app_assoc; cbn [app].
    + eexists. split; [done|]. split; [done|].
      constructor; [done|]. apply Forall_app.
      split; [apply Forall_is_print_log|]. by repeat constructor.
    + eexists. split; [done|]. split; [done|].
      constructor; [done|]. apply Forall_app.
      split; [apply Forall_is_print_log|]. by repeat constructor.
Qed.

Lemma run_client_cases inputs w :
  early_end (output (fst (run_client env inputs (initial_state w))))
            (snd (run_client env inputs (initial_state w))) ∨
  ∃ key info w5 rl disc st2 loop,
    Forall is_print disc ∧
    chat_loop env (discovered rl) inputs
      (State w5 [SystemMsg system_prompt]
         (startup_trace key info ++ EListTools rl :: disc ++ [EPrint DChatBanner])) =
      (st2, Ok tt) ∧
    output st2 =
      (startup_trace key info ++ EListTools rl :: disc ++ [EPrint DChatBanner]) ++ loop ∧
    run_client env inputs (initial_state w) = (add_output st2 closing, Ok tt).
Proof.
  unfold run_client, setup_openai, async_with, session_body, initial_state.
  unfold try_except, bind, ret, raise, print, emit, call, set_messages.
  cbn [world messages output app].
  destruct (openai_client env w) as [w1 [key|e]]; cbn [world messages output].
  2:{ left. by constructor. }
  destruct (truthy_str key) eqn:Hkey; cbn [negb world messages output].
  2:{ left. apply (SetupFailed (Ok key) missing_key_error). simpl. by rewrite Hkey. }
  destruct (stdio_client env w1) as [w2 [[]|e]]; cbn [world messages output].
  2:{ left. constructor. }
  destruct (client_session env w2) as [w3 [[]|e]]; cbn [world messages output].
  2:{ left. constructor. }
  destruct (initialize env w3) as [w4 [info|e]]; cbn [world messages output].
  2:{ left. constructor. }
  right.
  match goal with |- context [discover_tools env ?st] =>
    destruct (discover_tools_discovered st) as (w5 & rl & disc & _ & -> & Hd)
  end.
  cbn [world messages output].
  match goal with |- context [chat_loop env (discovered rl) inputs ?st] =>
    destruct (chat_loop_trace env (discovered rl) inputs st)
      as (st2 & loop & E & Ho & _)
  end.
  exists key, info, w5, rl, disc, st2, loop.
  cbn [output] in Ho. rewrite <- !app_assoc in E, Ho. cbn [app] in E, Ho.
  rewrite <- !app_assoc. cbn [app]. unfold startup_trace. cbn [app].
  rewrite E. cbn [world messages output fst snd].
  split; [done|]. split; [done|]. split; [rewrite Ho; by rewrite <- !app_assoc|].
  unfold add_output, closing. by rewrite <- !app_assoc.
Qed.

(** ** How the loop ends *)

Lemma dispatch_not_ending (e : event Json) :
  is_dispatch e = true → is_ending env e = false.
Proof. by destruct e. Qed.

Lemma print_not_ending (e : event Json) : is_print e → is_ending env e = false.
Proof. by destruct e. Qed.

(** A turn after which the loop goes on puts out nothing that ends the loop; a
    turn after which it stops puts out one such event, followed by what the
    loop prints for it. *)
Lemma turn_outcome_ending tools st line evs c w' ms' :
  turn_outcome env tools st line evs c w' ms' →
  match c with
  | Continue => Forall (λ e, is_ending env e = false) evs
  | Break =>
      ∃ pre x tail,
        evs = pre ++ x :: tail ∧
        Forall (λ e, is_ending env e = false) pre ∧
        ending env x = Some tail ∧
        Forall (λ e, is_ending env e = false) tail
  end.
Proof.
  destruct 1 as [|u He|u He Hb|u w e He Hb Hc|u w m He Hb Hc Ht
                 |u w m w2 devs results w3 r2 He Hb Hc Ht Hp Hf Hq Hc2].
  - exists [], (EInput None), [EPrint (DLoopError eof_error)].
    split; [done|]. split; [constructor|]. split; [done|]. by repeat constructor.
  - exists [], (EInput (Some u)), [EPrint DExitByUser].
    split; [done|]. split; [constructor|]. split; [simpl; by rewrite He|].
    by repeat constructor.
  - repeat constructor. unfold is_ending. simpl. by rewrite He.
  - eexists [EInput (Some u); EPrint DSendingRequest], (ECompletion _ (Raise e)), _.
    split; [done|]. split; [|split; [done|by repeat constructor]].
    repeat constructor. unfold is_ending. simpl. by rewrite He.
  - repeat constructor. unfold is_ending. simpl. by rewrite He.
  - assert (Hpre : Forall (λ e, is_ending env e = false)
                     ([EInput (Some u); EPrint DSendingRequest;
                       ECompletion (first_request tools (messages st ++ [UserMsg u])) (Ok m);
                       EPrint (DToolCallsChosen
                                 (map tc_function_name (default [] (cm_tool_calls m))))] ++
                      devs ++ [EPrint DSendingToolResults])).
    { apply Forall_app. split.
      - repeat constructor. unfold is_ending. simpl. by rewrite He.
      - apply Forall_app. split; [|by repeat constructor].
        eapply Forall_impl; [exact Hq|]. apply dispatch_not_ending. }
    destruct r2 as [m2|e].
    + rewrite !app_assoc. rewrite !app_assoc in Hpre.
      change [EPrint DSendingToolResults; ?a; ?b]
        with ([EPrint DSendingToolResults] ++ [a; b]).
      rewrite app_assoc. apply Forall_app. split; [done|]. by repeat constructor.
    + eexists _, (ECompletion _ (Raise e)), [EPrint (DLoopError e)].
      split; [|split; [exact Hpre|split; [done|by repeat constructor]]].
      by rewrite <- !app_assoc.
Qed.

Lemma chat_loop_ending tools inputs st :
  ∃ st' evs,
    chat_loop env tools inputs st = (st', Ok tt) ∧
    output st' = output st ++ evs ∧
    ∃ pre x tail,
      evs = pre ++ x :: tail ∧
      Forall (λ e, is_ending env e = false) pre ∧
      ending env x = Some tail ∧
      Forall (λ e, is_ending env e = false) tail.
Proof.
  apply (chat_loop_outcomes tools
           (λ _ _ evs _, ∃ pre x tail,
              evs = pre ++ x :: tail ∧
              Forall (λ e, is_ending env e = false) pre ∧
              ending env x = Some tail ∧
              Forall (λ e, is_ending env e = false) tail)).
  - intros st0 evs c w' ms' HT.
    assert (c = Break) as -> by (by inversion HT).
    exact (turn_outcome_ending _ _ _ _ _ _ _ HT).
  - intros l rest st0 evs w' ms' HT.
    exact (turn_outcome_ending _ _ _ _ _ _ _ HT).
  - intros l rest st0 evs1 w1 ms1 evs2 st2 HT _ (pre & x & tail & -> & Hpre & Hx & Ht).
    apply turn_outcome_ending in HT.
    exists (evs1 ++ pre), x, tail. rewrite <- app_assoc.
    split; [done|]. split; [by apply Forall_app|]. done.
Qed.

Lemma early_end_quiet (evs : list (event Json)) r :
  early_end evs r →
  Forall (λ e, is_ending env e = false ∧ is_list_tools e = false ∧
               is_completion e = false ∧ is_input e = false) evs.
Proof. destruct 1; by repeat constructor. Qed.

(** In every run, what follows an event that ends the loop is what the loop
    prints for it and the closing of the run. *)
Lemma run_ending inputs w before x after tail :
  output (fst (run_client env inputs (initial_state w))) = before ++ x :: after →
  ending env x = Some tail →
  after = tail ++ closing ∧
  snd (run_client env inputs (initial_state w)) = Ok tt.
Proof.
  intros E Hx.
  assert (Hex : is_ending env x = true) by (unfold is_ending; by rewrite Hx).
  destruct (run_client_cases inputs w)
    as [Hearly|(key & info & w5 & rl & disc & st2 & loop & Hd & El & Ho & Er)].
  { apply early_end_quiet in Hearly. rewrite E in Hearly.
    apply Forall_app in Hearly as [_ Hearly].
    apply Forall_cons in Hearly as [(Hne & _) _]. congruence. }
  rewrite Er in E |- *. split; [|done].
  destruct (chat_loop_ending (discovered rl) inputs
              (State w5 [SystemMsg system_prompt]
                 (startup_trace key info ++ EListTools rl :: disc ++ [EPrint DChatBanner])))
    as (st2' & loop' & El' & Ho' & pre & x0 & tail0 & -> & Hpre & Hx0 & Htail).
  rewrite El in El'. injection El' as <-.
  cbn [output fst add_output] in *. rewrite Ho' in E.
  assert (HP : Forall (λ e, is_ending env e = false)
                 ((startup_trace key info ++ EListTools rl :: disc ++ [EPrint DChatBanner])
                  ++ pre)).
  { apply Forall_app. split; [|done]. apply Forall_app. split.
    - by repeat constructor.
    - constructor; [done|]. apply Forall_app. split; [|by repeat constructor].
      eapply Forall_impl; [exact Hd|]. apply print_not_ending. }
  rewrite <- !app_assoc in E. rewrite !app_assoc in E.
  rewrite <- (app_assoc _ (x0 :: tail0) closing) in E.
  rewrite <- !app_assoc in HP. rewrite !app_assoc in HP.
  destruct (split_after_unmarked (is_ending env) _ _ before x after HP Hex E)
    as (before' & -> & E2).
  destruct before' as [|b before']; simpl in E2.
  - injection E2 as -> <-. rewrite Hx0 in Hx. by injection Hx as ->.
  - injection E2 as _ E2.
    assert (Hq : Forall (λ e, is_ending env e = false) (tail0 ++ closing)).
    { apply Forall_app. split; [done|]. by repeat constructor. }
    rewrite E2 in Hq. apply Forall_elem_false in Hq. congruence.
Qed.

(** X11.  In every run, when the input ends (the read raises [EOFError]) the
    loop reports the error and stops: what follows is the error line, the end
    of the chat and the release of the session and of the connection, and
    [run_client] returns normally. *)
Theorem end_of_input_closes_session inputs w before after :
  output (fst (run_client env inputs (initial_state w))) =
    before ++ EInput None :: after →
  after = [EPrint (DLoopError eof_error); EPrint DChatEnded; EExit Session;
           EPrint DSessionClosed; EExit Connection; EPrint DConnectionClosed] ∧
  snd (run_client env inputs (initial_state w)) = Ok tt.
Proof. intros E. exact (run_ending inputs w before _ after _ E eq_refl). Qed.

(** X12.  In every run, a completion request that raises ends the session: no
    retry, no further line read; what follows is the error line, the end of
    the chat and the release of the session and of the connection, and
    [run_client] returns normally. *)
Theorem failed_completion_closes_session inputs w before req e after :
  output (fst (run_client env inputs (initial_state w))) =
    before ++ ECompletion req (Raise e) :: after →
  after = [EPrint (DLoopError e); EPrint DChatEnded; EExit Session;
           EPrint DSessionClosed; EExit Connection; EPrint DConnectionClosed] ∧
  snd (run_client env inputs (initial_state w)) = Ok tt.
Proof. intros E. exact (run_ending inputs w before _ after _ E eq_refl). Qed.

(** ** The lines the loop reads *)

Lemma reads_app evs1 evs2 : reads (evs1 ++ evs2) = reads evs1 ++ reads evs2.
Proof. apply omap_app. Qed.

Lemma reads_quiet evs : Forall (λ e, is_input e = false) evs → reads evs = [].
Proof.
  induction 1 as [|e evs He _ IH]; [done|].
  unfold reads in *. cbn [omap list_omap]. by destruct e.
Qed.

Lemma turn_outcome_reads tools st line evs c w' ms' :
  turn_outcome env tools st line evs c w' ms' → reads evs = [line].
Proof.
  destruct 1 as [|u He|u He Hb|u w e He Hb Hc|u w m He Hb Hc Ht
                 |u w m w2 devs results w3 r2 He Hb Hc Ht Hp Hf Hq Hc2];
    try reflexivity.
  rewrite !reads_app, (reads_quiet devs).
  - reflexivity.
  - eapply Forall_impl; [exact Hq|]. by intros [].
Qed.

Lemma chat_loop_reads tools inputs st :
  ∃ st' evs,
    chat_loop env tools inputs st = (st', Ok tt) ∧
    output st' = output st ++ evs ∧
    reads evs `prefix_of` map Some inputs ++ [None].
Proof.
  apply (chat_loop_outcomes tools
           (λ inputs _ evs _, reads evs `prefix_of` map Some inputs ++ [None])).
  - intros st0 evs c w' ms' HT. by rewrite (turn_outcome_reads _ _ _ _ _ _ _ HT).
  - intros l rest st0 evs w' ms' HT. rewrite (turn_outcome_reads _ _ _ _ _ _ _ HT).
    simpl. apply prefix_cons, prefix_nil.
  - intros l rest st0 evs1 w1 ms1 evs2 st2 HT _ IH.
    rewrite reads_app, (turn_outcome_reads _ _ _ _ _ _ _ HT). simpl.
    by apply prefix_cons.
Qed.

(** X13.  In every run, the lines are read in the order they are given, each
    at most once and none skipped; the end of the input is read at most once,
    after all the lines, and nothing is read after the loop has stopped. *)
Theorem lines_read_in_order inputs w :
  reads (output (fst (run_client env inputs (initial_state w))))
    `prefix_of` map Some inputs ++ [None].
Proof.
  destruct (run_client_cases inputs w)
    as [Hearly|(key & info & w5 & rl & disc & st2 & loop & Hd & El & Ho & Er)].
  { rewrite reads_quiet; [apply prefix_nil|].
    eapply Forall_impl; [exact (early_end_quiet _ _ Hearly)|]. by intros e (_ & _ & _ & ?). }
  rewrite Er. cbn [fst output add_output].
  destruct (chat_loop_reads (discovered rl) inputs
              (State w5 [SystemMsg system_prompt]
                 (startup_trace key info ++ EListTools rl :: disc ++ [EPrint DChatBanner])))
    as (st2' & loop' & El' & Ho' & Hr).
  rewrite El in El'. injection El' as <-. rewrite Ho'. cbn [output].
  rewrite !reads_app.
  rewrite (reads_quiet (startup_trace key info)) by (by repeat constructor).
  change (EListTools rl :: disc ++ [EPrint DChatBanner])
    with ([EListTools rl] ++ disc ++ [EPrint DChatBanner]).
  rewrite !reads_app, (reads_quiet disc).
  - cbn. by rewrite app_nil_r.
  - eapply Forall_impl; [exact Hd|]. by intros [].
Qed.

(** ** The completion requests of a run *)

Lemma requests_app evs1 evs2 :
  requests (evs1 ++ evs2) = requests evs1 ++ requests evs2.
Proof. apply omap_app. Qed.

Lemma requests_quiet evs :
  Forall (λ e, is_completion e = false) evs → requests evs = [].
Proof.
  induction 1 as [|e evs He _ IH]; [done|].
  unfold requests in *. cbn [omap list_omap]. by destruct e.
Qed.

Lemma turn_outcome_requests tools st line evs c w' ms' :
  turn_outcome env tools st line evs c w' ms' →
  requests_chain tools (messages st) (requests evs) ms'.
Proof.
  destruct 1 as [|u He|u He Hb|u w e He Hb Hc|u w m He Hb Hc Ht
                 |u w m w2 devs results w3 r2 He Hb Hc Ht Hp Hf Hq Hc2].
  - split; [done|]. split; constructor.
  - split; [done|]. split; constructor.
  - split; [done|]. split; constructor.
  - split; [by apply prefix_app_r|]. split.
    + constructor; [|constructor]. split; [by apply prefix_app_r|].
      split; [done|]. by left.
    + repeat constructor.
  - split; [by apply prefix_app_r|]. split.
    + constructor; [|constructor]. split; [by apply prefix_app_r|].
      split; [|by left]. cbn. apply prefix_app. by eexists.
    + repeat constructor.
  - rewrite !requests_app, (requests_quiet devs)
      by (eapply Forall_impl; [exact Hq|]; by intros []).
    cbn. split; [by apply prefix_app_r|]. split.
    + constructor; [|constructor; [|constructor]].
      * split; [by apply prefix_app_r|]. split; [|by left].
        apply prefix_app. by eexists.
      * split; [by apply prefix_app_r|]. split; [|by right].
        cbn. apply prefix_app. do 2 apply prefix_cons. by apply prefix_app_r.
    + constructor; [repeat constructor|].
      constructor; [|constructor]. cbn. apply prefix_app. by eexists.
Qed.

Lemma chat_loop_requests tools inputs st :
  ∃ st' evs,
    chat_loop env tools inputs st = (st', Ok tt) ∧
    output st' = output st ++ evs ∧
    requests_chain tools (messages st) (requests evs) (messages st').
Proof.
  apply (chat_loop_outcomes tools
           (λ _ st evs st', requests_chain tools (messages st) (requests evs)
                                            (messages st'))).
  - intros st0 evs c w' ms' HT. exact (turn_outcome_requests _ _ _ _ _ _ _ HT).
  - intros l rest st0 evs w' ms' HT. exact (turn_outcome_requests _ _ _ _ _ _ _ HT).
  - intros l rest st0 evs1 w1 ms1 evs2 st2 HT _ (Hp2 & Hf2 & Hs2).
    apply turn_outcome_requests in HT as (Hp1 & Hf1 & Hs1).
    cbn [messages] in *. rewrite requests_app. split; [by etrans|]. split.
    + apply Forall_app. split.
      * eapply Forall_impl; [exact Hf1|]. intros r (? & ? & ?).
        split; [done|]. split; [by etrans|done].
      * eapply Forall_impl; [exact Hf2|]. intros r (? & ? & ?).
        split; [by etrans|]. done.
    + apply StronglySorted_app_2; [|done..].
      intros r1 r2 Hr1 Hr2.
      rewrite Forall_forall in Hf1, Hf2.
      destruct (Hf1 r1 Hr1) as (_ & ? & _). destruct (Hf2 r2 Hr2) as (? & _).
      by etrans.
Qed.

(** The requests of a whole run. *)
Lemma run_requests inputs w :
  requests (output (fst (run_client env inputs (initial_state w)))) = [] ∨
  ∃ key info rl disc loop ms',
    output (fst (run_client env inputs (initial_state w))) =
      startup_trace key info ++ EListTools rl :: disc ++ EPrint DChatBanner ::
      loop ++ closing ∧
    Forall is_print disc ∧
    Forall (λ e, is_list_tools e = false) loop ∧
    requests (output (fst (run_client env inputs (initial_state w)))) =
      requests loop ∧
    requests_chain (discovered rl) [SystemMsg system_prompt] (requests loop) ms'.
Proof.
  destruct (run_client_cases inputs w)
    as [Hearly|(key & info & w5 & rl & disc & st2 & loop & Hd & El & Ho & Er)].
  { left. apply requests_quiet.
    eapply Forall_impl; [exact (early_end_quiet _ _ Hearly)|]. by intros e (_ & _ & ? & _). }
  right. rewrite Er. cbn [fst output add_output].
  destruct (chat_loop_requests (discovered rl) inputs
              (State w5 [SystemMsg system_prompt]
                 (startup_trace key info ++ EListTools rl :: disc ++ [EPrint DChatBanner])))
    as (st2' & loop' & El' & Ho' & Hr).
  destruct (chat_loop_trace env (discovered rl) inputs
              (State w5 [SystemMsg system_prompt]
                 (startup_trace key info ++ EListTools rl :: disc ++ [EPrint DChatBanner])))
    as (st2'' & loop'' & El'' & Ho'' & Hlt & _).
  rewrite El in El', El''. injection El' as <-. injection El'' as <-.
  rewrite Ho' in Ho''. apply app_inv_head in Ho''. subst loop''.
  exists key, info, rl, disc, loop', (messages st2). rewrite Ho'. cbn [output messages] in *.
  split; [by rewrite <- !app_assoc; cbn [app]; rewrite <- !app_assoc|].
  split; [done|]. split.
  { eapply Forall_impl; [exact Hlt|]. by intros [] [?|?]. }
  split; [|done].
  rewrite !requests_app.
  rewrite (requests_quiet (startup_trace key info)) by (by repeat constructor).
  change (EListTools rl :: disc ++ [EPrint DChatBanner])
    with ([EListTools rl] ++ disc ++ [EPrint DChatBanner]).
  rewrite !requests_app, (requests_quiet disc)
    by (eapply Forall_impl; [exact Hd|]; by intros []).
  cbn. by rewrite app_nil_r.
Qed.

(** X14.  In every run the history only grows: the history sent with a
    completion request extends the history sent with every earlier request,
    and every request's history starts with the system message. *)
Theorem requests_extend_history inputs w :
  let rs := requests (output (fst (run_client env inputs (initial_state w)))) in
  StronglySorted (λ r1 r2, req_messages r1 `prefix_of` req_messages r2) rs ∧
  Forall (λ r, [SystemMsg system_prompt] `prefix_of` req_messages r) rs.
Proof.
  intros rs. subst rs.
  destruct (run_requests inputs w)
    as [->|(key & info & rl & disc & loop & ms' & _ & _ & _ & -> & _ & Hf & Hs)].
  { split; constructor. }
  split; [done|]. eapply Forall_impl; [exact Hf|]. by intros r (? & _).
Qed.

(** X15.  In every run, the tools that the discovery ended with are what every
    turn offers: after the list-tools call with outcome [rl], each completion
    request is either the first request of a turn, with model [gpt-4o], the
    tool list [discovered rl] (or [None] when that list is empty) and tool
    choice [auto], or the second request of a turn, with no tool argument. *)
Theorem discovered_tools_offered_each_turn inputs w rl :
  EListTools rl ∈ output (fst (run_client env inputs (initial_state w))) →
  Forall (λ r, r = first_request (discovered rl) (req_messages r) ∨
               r = second_request (req_messages r))
         (requests (output (fst (run_client env inputs (initial_state w))))).
Proof.
  intros Hin.
  destruct (run_requests inputs w)
    as [->|(key & info & rl0 & disc & loop & ms' & E & Hd & Hl & -> & _ & Hf & _)].
  { constructor. }
  assert (rl = rl0) as ->.
  { rewrite E in Hin. apply elem_of_app in Hin as [Hin|Hin].
    { assert (Hq : Forall (λ e : event Json, is_list_tools e = false)
                     (startup_trace key info)) by (by repeat constructor).
      rewrite Forall_forall in Hq. by apply Hq in Hin. }
    apply elem_of_cons in Hin as [[= ->]|Hin]; [done|].
    assert (Hq : Forall (λ e : event Json, is_list_tools e = false)
                   (disc ++ EPrint DChatBanner :: loop ++ closing)).
    { apply Forall_app. split; [eapply Forall_impl; [exact Hd|]; by intros []|].
      constructor; [done|]. apply Forall_app. split; [done|]. by repeat constructor. }
    rewrite Forall_forall in Hq. by apply Hq in Hin. }
  eapply Forall_impl; [exact Hf|]. by intros r (_ & _ & ?).
Qed.

(** ** Failures before the chat *)

(** X16.  When the client of the completion endpoint cannot be set up (its
    construction raises, or it has no API key or an empty one), [run_client]
    prints the error and returns normally: the tool server is not started,
    no line is read and no request is sent. *)
Theorem setup_failure_starts_nothing inputs w w1 r e :
  openai_client env w = (w1, r) →
  setup_error r = Some e →
  run_client env inputs (initial_state w) =
    (State w1 [] [EPrint DStart; EPrint DOpenaiSetup; ESetup r;
                  EPrint (DOpenaiSetupError e)], Ok tt).
Proof.
  intros Ec He. unfold run_client, setup_openai, initial_state. unfold_m.
  rewrite Ec. destruct r as [key|e0]; cbn in He |- *.
  - destruct (truthy_str key); [done|]. injection He as <-. reflexivity.
  - injection He as <-. reflexivity.
Qed.

(** A run that reached the tool discovery returns normally and holds no
    failure of the connection, of the session or of the initialization. *)
Lemma run_client_failures inputs w :
  early_end (output (fst (run_client env inputs (initial_state w))))
            (snd (run_client env inputs (initial_state w))) ∨
  (snd (run_client env inputs (initial_state w)) = Ok tt ∧
   Forall (λ e, is_startup_failure e = false)
          (output (fst (run_client env inputs (initial_state w))))).
Proof.
  destruct (run_client_cases inputs w)
    as [Hearly|(key & info & w5 & rl & disc & st2 & loop & Hd & El & Ho & Er)];
    [by left|right].
  rewrite Er. cbn [fst snd output add_output]. split; [done|].
  destruct (chat_loop_trace env (discovered rl) inputs
              (State w5 [SystemMsg system_prompt]
                 (startup_trace key info ++ EListTools rl :: disc ++ [EPrint DChatBanner])))
    as (st2' & loop' & El' & Ho' & Hlt & _).
  rewrite El in El'. injection El' as <-. rewrite Ho' in Ho.
  apply app_inv_head in Ho. subst loop'. rewrite Ho'. cbn [output].
  rewrite !Forall_app. repeat split.
  - by repeat constructor.
  - constructor; [done|]. apply Forall_app. split; [|by repeat constructor].
    eapply Forall_impl; [exact Hd|]. by intros [].
  - eapply Forall_impl; [exact Hlt|]. by intros [] [?|?].
  - by repeat constructor.
Qed.

(** X17.  [run_client] raises [e] exactly when entering the connection,
    entering the session or the initialization raised [e] in the run: these
    are the failures it does not handle, and every other failure (of the
    setup, of the tool discovery, of a completion request, of a tool call, of
    the input) is handled inside. *)
Theorem unhandled_failures_are_startup_failures inputs w e :
  snd (run_client env inputs (initial_state w)) = Raise e ↔
  ∃ ev, ev ∈ output (fst (run_client env inputs (initial_state w))) ∧
        startup_failure e ev.
Proof.
  destruct (run_client_failures inputs w) as [Hearly|[Hr Hq]].
  - destruct Hearly as [r e0 He|key e0|key e0|key e0]; split.
    + done.
    + intros (ev & Hin & Hf). exfalso.
      repeat (apply elem_of_cons in Hin as [->|Hin];
              [by destruct Hf as [?|[?|?]]|]).
      by apply elem_of_nil in Hin.
    + intros [= ->]. eexists. split; [|by left]. set_solver.
    + intros (ev & Hin & Hf).
      repeat (apply elem_of_cons in Hin as [-> | Hin];
              [destruct Hf as [?|[?|?]]; by simplify_eq|]).
      by apply elem_of_nil in Hin.
    + intros [= ->]. eexists. split; [|right; by left]. set_solver.
    + intros (ev & Hin & Hf).
      repeat (apply elem_of_cons in Hin as [-> | Hin];
              [destruct Hf as [?|[?|?]]; by simplify_eq|]).
      by apply elem_of_nil in Hin.
    + intros [= ->]. eexists. split; [|right; by right]. set_solver.
    + intros (ev & Hin & Hf).
      repeat (apply elem_of_cons in Hin as [-> | Hin];
              [destruct Hf as [?|[?|?]]; by simplify_eq|]).
      by apply elem_of_nil in Hin.
  - rewrite Hr. split; [done|]. intros (ev & Hin & Hf). exfalso.
    rewrite Forall_forall in Hq. apply Hq in Hin.
    by destruct Hf as [-> | [-> | ->]].
Qed.

(** ** How many requests a run sends *)

Lemma turn_outcome_request_count tools st line evs c w' ms' :
  turn_outcome env tools st line evs c w' ms' →
  length (requests evs) ≤ 2 ∧ (line = None → requests evs = []).
Proof.
  destruct 1 as [|u He|u He Hb|u w e He Hb Hc|u w m He Hb Hc Ht
                 |u w m w2 devs results w3 r2 He Hb Hc Ht Hp Hf Hq Hc2];
    try (split; [cbn; lia|done]).
  rewrite !requests_app, (requests_quiet devs)
    by (eapply Forall_impl; [exact Hq|]; by intros []).
  split; [cbn; lia|done].
Qed.

Lemma chat_loop_request_count tools inputs st :
  ∃ st' evs,
    chat_loop env tools inputs st = (st', Ok tt) ∧
    output st' = output st ++ evs ∧
    length (requests evs) ≤ 2 * length inputs.
Proof.
  apply (chat_loop_outcomes tools
           (λ inputs _ evs _, length (requests evs) ≤ 2 * length inputs)).
  - intros st0 evs c w' ms' HT.
    destruct (turn_outcome_request_count _ _ _ _ _ _ _ HT) as [_ Hn].
    rewrite Hn by done. cbn. lia.
  - intros l rest st0 evs w' ms' HT.
    destruct (turn_outcome_request_count _ _ _ _ _ _ _ HT) as [? _].
    cbn [length]. lia.
  - intros l rest st0 evs1 w1 ms1 evs2 st2 HT _ IH.
    destruct (turn_outcome_request_count _ _ _ _ _ _ _ HT) as [? _].
    rewrite requests_app, length_app. cbn [length]. lia.
Qed.

(** X18.  A run sends at most two completion requests for each line it is
    given: a turn never asks a third time, whatever the second response
    holds. *)
Theorem at_most_two_requests_per_line inputs w :
  length (requests (output (fst (run_client env inputs (initial_state w)))))
    ≤ 2 * length inputs.
Proof.
  destruct (run_client_cases inputs w)
    as [Hearly|(key & info & w5 & rl & disc & st2 & loop & Hd & El & Ho & Er)].
  { rewrite requests_quiet; [cbn; lia|].
    eapply Forall_impl; [exact (early_end_quiet _ _ Hearly)|]. by intros e (_ & _ & ? & _). }
  rewrite Er. cbn [fst output add_output].
  destruct (chat_loop_request_count (discovered rl) inputs
              (State w5 [SystemMsg system_prompt]
                 (startup_trace key info ++ EListTools rl :: disc ++ [EPrint DChatBanner])))
    as (st2' & loop' & El' & Ho' & Hr).
  rewrite El in El'. injection El' as <-. rewrite Ho'. cbn [output].
  rewrite !requests_app.
  rewrite (requests_quiet (startup_trace key info)) by (by repeat constructor).
  change (EListTools rl :: disc ++ [EPrint DChatBanner])
    with ([EListTools rl] ++ disc ++ [EPrint DChatBanner]).
  rewrite !requests_app, (requests_quiet disc)
    by (eapply Forall_impl; [exact Hd|]; by intros []).
  cbn. by rewrite app_nil_r.
Qed.

End LoopProps.

(** * Properties of the entry point *)

Section MainProps.
Context {W Json : Type}.
Variable env : collaborators W Json.

(** X19.  What the script reports when the key is in the environment: after
    its two opening lines come the events of [run_client] and one closing
    line.  The closing line is the error line for [e] exactly when entering
    the connection, entering the session or the initialization raised [e];
    in every other run, whatever else failed inside, it is the line that says
    the run is done. *)
Theorem main_reports_unhandled_failure inputs w :
  ∃ d,
    snd (main env true inputs w) =
      [MPrint MDotenvLoaded; MPrint MScriptStarted] ++
      map MClient (output (fst (run_client env inputs (initial_state w)))) ++
      [MPrint d] ∧
    ((d = MRunDone ∧
      Forall (λ e, is_startup_failure e = false)
             (output (fst (run_client env inputs (initial_state w))))) ∨
     (∃ e ev, d = MUnexpectedError e ∧
              ev ∈ output (fst (run_client env inputs (initial_state w))) ∧
              startup_failure e ev)).
Proof.
  pose proof (run_client_failures env inputs w) as H. unfold main. cbn [negb].
  destruct (run_client env inputs (initial_state w)) as [st r].
  cbn [fst snd] in *. eexists. split; [reflexivity|].
  destruct H as [Hearly|[-> Hq]]; [|by left].
  destruct Hearly as [r e0 He|key e0|key e0|key e0].
  - left. split; [done|]. by repeat constructor.
  - right. exists e0, (EEnter Connection (Raise e0)).
    split; [done|]. split; [set_solver|by left].
  - right. exists e0, (EEnter Session (Raise e0)).
    split; [done|]. split; [set_solver|right; by left].
  - right. exists e0, (EInitialize (Raise e0)).
    split; [done|]. split; [set_solver|right; by right].
Qed.

End MainProps.

(** * Further examples *)

(** X8 at work: the server lists the tool [add]. *)
Lemma discovery_translates_witness :
  ∃ out ts,
    discover_tools Demo.with_tools (Demo.at_loop []) =
      (State [] [SystemMsg system_prompt]
         ([] ++
          [EPrint DRequestingTools; EListTools (Ok [add_tool]);
           EPrint (DToolsReceived 1)] ++
          map EPrint out ++ [EPrint DToolsConverted]),
       Ok ts) ∧
    Forall2 (λ t ot, (∃ o, mcp_tool_to_openai_tool t = (o, Ok ot)) ∧
                     f_name (ot_function ot) = getattr (t_name t) (Some "unknown_tool"))
            [add_tool] ts.
Proof.
  apply (discovery_translates_every_tool Demo.with_tools (Demo.at_loop []) [] [add_tool]).
  - reflexivity.
  - discriminate.
  - apply Forall_cons. split; [discriminate|constructor].
Defined.

(** X9 at work: the server lists [add] and a tool without a name whose
    argument has no name either; the chat goes on without any tool. *)
Lemma bad_descriptor_witness :
  ∃ out,
    discover_tools Faults.bad_listing (Demo.at_loop []) =
      (State [] [SystemMsg system_prompt]
         ([] ++
          [EPrint DRequestingTools; EListTools (Ok ([add_tool] ++ nameless_tool :: []));
           EPrint (DToolsReceived 2)] ++
          map EPrint out ++
          [EPrint (DToolsError (Exn AttributeError "object has no attribute 'name'"))]),
       Ok []).
Proof.
  apply (bad_descriptor_drops_all_tools Faults.bad_listing (Demo.at_loop []) []
           [add_tool] nameless_tool [] []
           (Exn AttributeError "object has no attribute 'name'")).
  - reflexivity.
  - apply Forall_cons. split; [discriminate|constructor].
  - reflexivity.
Defined.

(** X11 at work: one line, then the input ends. *)
Lemma end_of_input_witness :
  output (fst (run_client Demo.with_tools ["hello"]
                 (initial_state [Ok (Demo.says "Hi there")]))) =
    take 23 (output (fst (run_client Demo.with_tools ["hello"]
                            (initial_state [Ok (Demo.says "Hi there")])))) ++
    EInput None ::
    drop 24 (output (fst (run_client Demo.with_tools ["hello"]
                            (initial_state [Ok (Demo.says "Hi there")])))) ∧
  drop 24 (output (fst (run_client Demo.with_tools ["hello"]
                          (initial_state [Ok (Demo.says "Hi there")])))) =
    [EPrint (DLoopError eof_error); EPrint DChatEnded; EExit Session;
     EPrint DSessionClosed; EExit Connection; EPrint DConnectionClosed] ∧
  snd (run_client Demo.with_tools ["hello"]
         (initial_state [Ok (Demo.says "Hi there")])) = Ok tt.
Proof.
  assert (E : output (fst (run_client Demo.with_tools ["hello"]
                             (initial_state [Ok (Demo.says "Hi there")]))) =
              take 23 (output (fst (run_client Demo.with_tools ["hello"]
                                      (initial_state [Ok (Demo.says "Hi there")])))) ++
              EInput None ::
              drop 24 (output (fst (run_client Demo.with_tools ["hello"]
                                      (initial_state [Ok (Demo.says "Hi there")])))))
    by (vm_compute; reflexivity).
  exact (conj E (end_of_input_closes_session Demo.with_tools _ _ _ _ E)).
Defined.

(** X12 at work: the completion endpoint cannot be reached; the second line
    is never read. *)
Lemma failed_completion_witness :
  output (fst (run_client Demo.with_tools ["hello"; "more"] (initial_state []))) =
    take 21 (output (fst (run_client Demo.with_tools ["hello"; "more"]
                            (initial_state [])))) ++
    ECompletion (first_request Demo.translated_add
                   [SystemMsg system_prompt; UserMsg "hello"])
                (Raise (Exn (OtherException "APIConnectionError") "Connection error.")) ::
    drop 22 (output (fst (run_client Demo.with_tools ["hello"; "more"]
                            (initial_state [])))) ∧
  drop 22 (output (fst (run_client Demo.with_tools ["hello"; "more"]
                          (initial_state [])))) =
    [EPrint (DLoopError (Exn (OtherException "APIConnectionError") "Connection error."));
     EPrint DChatEnded; EExit Session;
     EPrint DSessionClosed; EExit Connection; EPrint DConnectionClosed] ∧
  snd (run_client Demo.with_tools ["hello"; "more"] (initial_state [])) = Ok tt.
Proof.
  assert (E : output (fst (run_client Demo.with_tools ["hello"; "more"]
                             (initial_state []))) =
              take 21 (output (fst (run_client Demo.with_tools ["hello"; "more"]
                                      (initial_state [])))) ++
              ECompletion (first_request Demo.translated_add
                             [SystemMsg system_prompt; UserMsg "hello"])
                          (Raise (Exn (OtherException "APIConnectionError")
                                      "Connection error.")) ::
              drop 22 (output (fst (run_client Demo.with_tools ["hello"; "more"]
                                      (initial_state [])))))
    by (vm_compute; reflexivity).
  exact (conj E (failed_completion_closes_session Demo.with_tools _ _ _ _ _ _ E)).
Defined.

(** X15 at work: the tool [add] is discovered and offered with the request of
    the turn. *)
Lemma discovered_tools_offered_witness :
  EListTools (Ok [add_tool]) ∈
    output (fst (run_client Demo.with_tools ["hello"]
                   (initial_state [Ok (Demo.says "Hi there")]))) ∧
  Forall (λ r, r = first_request (discovered (Ok [add_tool])) (req_messages r) ∨
               r = second_request (req_messages r))
         (requests (output (fst (run_client Demo.with_tools ["hello"]
                                   (initial_state [Ok (Demo.says "Hi there")]))))).
Proof.
  assert (H : EListTools (Ok [add_tool]) ∈
                output (fst (run_client Demo.with_tools ["hello"]
                               (initial_state [Ok (Demo.says "Hi there")]))))
    by (apply list_elem_of_lookup_2 with 15%nat; vm_compute; reflexivity).
  exact (conj H (discovered_tools_offered_each_turn Demo.with_tools _ _ _ H)).
Defined.

(** X16 at work: the client has no API key. *)
Lemma setup_failure_witness :
  run_client Faults.no_key ["hello"] (initial_state []) =
    (State [] [] [EPrint DStart; EPrint DOpenaiSetup; ESetup (Ok None);
                  EPrint (DOpenaiSetupError missing_key_error)], Ok tt).
Proof.
  apply (setup_failure_starts_nothing Faults.no_key ["hello"] [] [] (Ok None)
           missing_key_error); reflexivity.
Defined.

(** X17 at work: the server does not answer the initialization, and
    [run_client] raises the error of the initialization. *)
Lemma unhandled_failure_witness :
  snd (run_client Faults.failing_initialize ["hello"] (initial_state [])) =
    Raise Faults.init_error.
Proof.
  apply (proj2 (unhandled_failures_are_startup_failures Faults.failing_initialize
                  ["hello"] [] Faults.init_error)).
  exists (EInitialize (Raise Faults.init_error)). split.
  - apply list_elem_of_lookup_2 with 12%nat. vm_compute. reflexivity.
  - right. right. reflexivity.
Defined.
